(** * A shallow embedding of the data validator

    Source: [src/DataValidator/DataValidator.py] ([Issue], [add_issue],
    [validate_dataframe], [issues_to_df]).

    The validator is written against pandas.  The part of pandas it calls is
    modelled in [Module pd], on the frames the application builds (it reads
    every frame with [pd.read_csv]): the column names are distinct strings,
    there is at least one column, the index is the default [0 .. n-1], and a
    cell is an integer, a float, a boolean, a string or the missing marker
    [NaN].  A float is modelled by the rational it stands for; the
    infinities are outside the model.  An integer cell is an int64; where
    numpy compares it with a float bound it is first rounded to the nearest
    float64 ([pd.float64_of_int]).  Three behaviours of pandas are not
    modelled but taken as parameters of the development: how a text cell is
    read as a number ([pd.to_numeric]), which cells of a column
    [pd.to_datetime] fails to read, and on which columns [pd.to_datetime]
    raises instead of returning.  [validate_dataframe] is the result of the
    call when it returns; [validate_dataframe_call] is the call with its
    exception. *)

From Stdlib Require Import List String Ascii Bool Arith ZArith QArith Lia.
Import ListNotations.

Open Scope string_scope.
Open Scope nat_scope.
Open Scope list_scope.

Set Implicit Arguments.

(** ** The pandas operations the validator uses *)

Module pd.

(** A cell of a frame. [NaN] is the missing marker. *)
Inductive scalar : Type :=
| VInt (n : Z)
| VFloat (q : Q)
| VBool (b : bool)
| VStr (s : string)
| NaN.

(** The numeric reading of a cell that already is a number (a Python
    boolean is the integer 0 or 1). *)
Definition as_number (v : scalar) : option Q :=
  match v with
  | VInt n => Some (inject_Z n)
  | VFloat q => Some q
  | VBool b => Some (if b then 1%Q else 0%Q)
  | VStr _ => None
  | NaN => None
  end.

(** Equality of two cells as the hash tables behind [duplicated] and [isin]
    see it: Python's [==] on values, and the missing marker equal to
    itself. *)
Definition value_eqb (a b : scalar) : bool :=
  match a, b with
  | NaN, NaN => true
  | VStr s, VStr t => String.eqb s t
  | _, _ =>
      match as_number a, as_number b with
      | Some x, Some y => Qeq_bool x y
      | _, _ => false
      end
  end.

(** A row maps column names to cells; a frame is its column names and its
    rows, the row at position [i] having index label [i]. *)
Definition Row : Type := list (string * scalar).

Record DataFrame : Type := {
  columns : list string;
  rows : list Row
}.

(** A Series keeps the index label next to each of its items. *)
Definition Series (A : Type) : Type := list (nat * A).

Fixpoint lookup (A : Type) (k : string) (d : list (string * A)) : option A :=
  match d with
  | [] => None
  | (k', v) :: d' => if String.eqb k k' then Some v else lookup k d'
  end.

(** [df.at[idx, col]] for a row already selected. *)
Definition cell (r : Row) (col : string) : scalar :=
  match lookup col r with
  | Some v => v
  | None => NaN
  end.

(** [c in df.columns] *)
Definition has_column (df : DataFrame) (c : string) : bool :=
  existsb (String.eqb c) (columns df).

(** [len(df)] *)
Definition len (df : DataFrame) : nat := List.length (rows df).

(** [df.index] *)
Definition index (df : DataFrame) : list nat := seq 0 (len df).

(** [df[col]] *)
Definition getitem (df : DataFrame) (col : string) : Series scalar :=
  combine (index df) (map (fun r => cell r col) (rows df)).

(** [df.at[idx, col]] *)
Definition at_ (df : DataFrame) (idx : nat) (col : string) : scalar :=
  match nth_error (rows df) idx with
  | Some r => cell r col
  | None => NaN
  end.

(** The float64 number nearest to an int64, ties going to the even
    significand: what numpy makes of an integer item that meets a float.  An
    integer of at most 53 bits is its own float; a longer one loses its low
    bits, and its float is an integer again, which is what is returned. *)
Definition float64_of_int (n : Z) : Z :=
  let a := Z.abs n in
  let e := (Z.log2 a + 1 - 53)%Z in
  if (e <=? 0)%Z then n
  else
    let q := (a / 2 ^ e)%Z in
    let r := (a mod 2 ^ e)%Z in
    let half := (2 ^ (e - 1))%Z in
    let q := if (r <? half)%Z then q
             else if (half <? r)%Z then (q + 1)%Z
             else if Z.even q then q else (q + 1)%Z in
    (Z.sgn n * (q * 2 ^ e))%Z.

(** The dtype [pd.read_csv] gives a column, read off its cells: integers
    without a gap are int64, numbers with floats or gaps are float64,
    booleans without a gap are bool, anything else is object. *)
Inductive dtype : Type :=
| int64
| float64
| bool_
| object.

Definition dtype_of (cells : list scalar) : dtype :=
  if forallb (fun v => match v with VInt _ => true | _ => false end) cells
  then int64
  else if forallb (fun v => match v with VBool _ => true | _ => false end) cells
  then bool_
  else if forallb (fun v => match v with
                            | VInt _ | VFloat _ | NaN => true
                            | _ => false
                            end) cells
  then float64
  else object.

(** The dtype of the row [df.loc[idx, cols]]: the common dtype of the
    selected columns.  Only int64 next to float64 changes items (the
    integers become floats); every other mix is object, which keeps them. *)
Definition upcasts_to_float (df : DataFrame) (cols : list string) : bool :=
  let dtypes := map (fun c => dtype_of (map snd (getitem df c))) cols in
  forallb (fun d => match d with int64 | float64 => true | _ => false end)
          dtypes
  && existsb (fun d => match d with float64 => true | _ => false end) dtypes.

Definition astype_float (v : scalar) : scalar :=
  match v with
  | VInt n => VFloat (inject_Z (float64_of_int n))
  | _ => v
  end.

(** The keys of the dict built from a list of labels: a label listed twice
    is one key, at the place of its first occurrence. *)
Fixpoint keys_once (seen cols : list string) : list string :=
  match cols with
  | [] => []
  | c :: cols' =>
      if existsb (String.eqb c) seen then keys_once seen cols'
      else c :: keys_once (c :: seen) cols'
  end.

(** [df.loc[idx, cols].to_dict()] *)
Definition loc_to_dict (df : DataFrame) (idx : nat) (cols : list string)
  : list (string * scalar) :=
  let keys := keys_once [] cols in
  let item := if upcasts_to_float df keys then astype_float else (fun v => v) in
  map (fun c => (c, item (at_ df idx c))) keys.

Definition isna_value (v : scalar) : bool :=
  match v with
  | NaN => true
  | _ => false
  end.

(** [s.isna()] *)
Definition isna (s : Series scalar) : Series bool :=
  map (fun iv => (fst iv, isna_value (snd iv))) s.

(** [s.dropna()] *)
Definition dropna (s : Series scalar) : Series scalar :=
  filter (fun iv => negb (isna_value (snd iv))) s.

(** [~mask] *)
Definition invert (m : Series bool) : Series bool :=
  map (fun ib => (fst ib, negb (snd ib))) m.

(** [m1 & m2], item by item. *)
Definition and_ (m1 m2 : Series bool) : Series bool :=
  map (fun p => (fst (fst p), snd (fst p) && snd (snd p))) (combine m1 m2).

(** [df.index[mask]], [s.index[mask]] and [bad[bad].index]: the labels at
    which a boolean Series holds. *)
Definition index_where (m : Series bool) : list nat :=
  map fst (filter snd m).

(** The key of a row under a list of columns, and equality of two keys. *)
Definition key_of (subset : list string) (r : Row) : list scalar :=
  map (cell r) subset.

Fixpoint key_eqb (k1 k2 : list scalar) : bool :=
  match k1, k2 with
  | [], [] => true
  | a :: k1', b :: k2' => value_eqb a b && key_eqb k1' k2'
  | _, _ => false
  end.

(** [df.duplicated(subset=subset, keep=False)]: a row is marked when some
    row at another position has the same values in the columns of
    [subset]. *)
Definition duplicated (df : DataFrame) (subset : list string) : Series bool :=
  let keys := combine (index df) (map (key_of subset) (rows df)) in
  map (fun ik =>
         (fst ik,
          existsb (fun jk => negb (fst ik =? fst jk)
                             && key_eqb (snd ik) (snd jk)) keys))
      keys.

(** [s.isin(allowed)] *)
Definition isin (s : Series scalar) (allowed : list scalar) : Series bool :=
  map (fun iv => (fst iv, existsb (value_eqb (snd iv)) allowed)) s.

(** [s.astype(str).str.contains("@", na=False)]: the text of a number or of
    a boolean has no '@', the text of a string is the string. *)
Definition has_at_sign (v : scalar) : bool :=
  match v with
  | VStr s => existsb (Ascii.eqb "@"%char) (list_ascii_of_string s)
  | _ => false
  end.

Definition astype_str_contains_at (s : Series scalar) : Series bool :=
  map (fun iv => (fst iv, has_at_sign (snd iv))) s.

(** [x in (list, dict, set, tuple)] by [isinstance]: no cell of the model is
    a container. *)
Definition is_container (v : scalar) : bool := false.

Definition Qltb (x y : Q) : bool := negb (Qle_bool y x).

(** [(numeric < bound).fillna(False)] and [(numeric > bound).fillna(False)]
    on a coerced Series, whose NaN items are [None]: a comparison with NaN
    is false.  The bound is a float, so numpy compares in float64: the items
    of the Series are the float64 numbers of the cells ([to_numeric] below
    has rounded the integers). *)
Definition lt_scalar (s : Series (option Q)) (bound : Q) : Series bool :=
  map (fun ix => (fst ix,
                  match snd ix with
                  | Some x => Qltb x bound
                  | None => false
                  end)) s.

Definition gt_scalar (s : Series (option Q)) (bound : Q) : Series bool :=
  map (fun ix => (fst ix,
                  match snd ix with
                  | Some x => Qltb bound x
                  | None => false
                  end)) s.

(** [converted.isna()] on a coerced Series. *)
Definition isna_numeric (s : Series (option Q)) : Series bool :=
  map (fun ix => (fst ix,
                  match snd ix with
                  | Some _ => false
                  | None => true
                  end)) s.

End pd.

Import pd.

(** ** The issue record *)

(** The text of an issue, with the values the source interpolates into it kept
    as arguments; the texts of two different constructors never coincide
    (they differ in their fixed words). *)
Inductive message : Type :=
| Missing_required_column
| Missing_value
| Missing_key_column_for_duplicate_check
| Duplicate_key
| Duplicate_row
| Unknown_expected_type (type_name : string)
| Type_mismatch (type_name : string)
| Value_below_min (min_val : Q)
| Value_above_max (max_val : Q)
| Value_not_allowed (allowed : list scalar)
| Invalid_email.

(** The field [value : Any] of an issue: [None], a cell, or the dict built by
    [df.loc[idx, key_cols].to_dict()]. *)
Inductive payload : Type :=
| PNone
| PCell (v : scalar)
| PDict (d : list (string * scalar)).

Record Issue : Type := {
  row_index : option nat;
  column : option string;
  issue : message;
  value : payload
}.

Definition add_issue (issues : list Issue) (row_index : option nat)
  (column : option string) (issue : message) (value : payload) : list Issue :=
  issues ++ [Build_Issue row_index column issue value].

(** ** The summary *)

(** Two cells with the same text in a message. *)
Definition value_same_text (a b : scalar) : bool :=
  match a, b with
  | VInt n, VInt m => Z.eqb n m
  | VFloat x, VFloat y => Qeq_bool x y
  | VBool x, VBool y => Bool.eqb x y
  | VStr s, VStr t => String.eqb s t
  | NaN, NaN => true
  | _, _ => false
  end.

Fixpoint values_same_text (l1 l2 : list scalar) : bool :=
  match l1, l2 with
  | [], [] => true
  | a :: l1', b :: l2' => value_same_text a b && values_same_text l1' l2'
  | _, _ => false
  end.

(** Equality of two issue texts. *)
Definition message_eqb (m1 m2 : message) : bool :=
  match m1, m2 with
  | Missing_required_column, Missing_required_column => true
  | Missing_value, Missing_value => true
  | Missing_key_column_for_duplicate_check,
    Missing_key_column_for_duplicate_check => true
  | Duplicate_key, Duplicate_key => true
  | Duplicate_row, Duplicate_row => true
  | Unknown_expected_type s, Unknown_expected_type t => String.eqb s t
  | Type_mismatch s, Type_mismatch t => String.eqb s t
  | Value_below_min x, Value_below_min y => Qeq_bool x y
  | Value_above_max x, Value_above_max y => Qeq_bool x y
  | Value_not_allowed l1, Value_not_allowed l2 => values_same_text l1 l2
  | Invalid_email, Invalid_email => true
  | _, _ => false
  end.

Fixpoint count_one (m : message) (d : list (message * nat))
  : list (message * nat) :=
  match d with
  | [] => [(m, 1)]
  | (k, n) :: d' =>
      if message_eqb m k then (k, S n) :: d' else (k, n) :: count_one m d'
  end.

(** [pd.Series(texts).value_counts().to_dict()], as a dict: each text with
    its number of occurrences (the order of the items of the dict is not
    modelled). *)
Definition value_counts (texts : list message) : list (message * nat) :=
  fold_left (fun d m => count_one m d) texts [].

Record Summary : Type := {
  summary_rows : nat;
  summary_cols : nat;
  total_issues : nat;
  issue_types : list (message * nat)
}.

(** ** [validate_dataframe] *)

Section Validator.

(** How [pd.to_numeric] reads a text cell, as a float64: [None] when it is
    no number. *)
Variable text_to_number : string -> option Q.

(** Whether [pd.to_datetime] fails on a cell of a column, given the items
    of the column it converts, when it returns. *)
Variable datetime_unread : list scalar -> scalar -> bool.

(** The number a cell coerces to, as a float64: the comparisons with the
    float bounds see an integer cell rounded to the nearest float. *)
Definition to_numeric_value (v : scalar) : option Q :=
  match v with
  | VStr s => text_to_number s
  | VInt n => Some (inject_Z (float64_of_int n))
  | _ => as_number v
  end.

(** [pd.to_numeric(s, errors="coerce")]: [None] stands for the NaN of a
    failed coercion and of a missing cell.  The Series is used for
    [.isna()] and for comparisons with a float only, so each item is kept
    as the float64 it is compared as. *)
Definition to_numeric (s : Series scalar) : Series (option Q) :=
  map (fun iv => (fst iv, to_numeric_value (snd iv))) s.

(** [pd.to_datetime(s, errors="coerce", utc=False).isna()] *)
Definition to_datetime_isna (s : Series scalar) : Series bool :=
  map (fun iv => (fst iv, datetime_unread (map snd s) (snd iv))) s.

(** Required columns exist. *)
Definition check_required_cols (df : DataFrame) (required_cols : list string)
  (issues : list Issue) : list Issue :=
  let missing_required_cols :=
    filter (fun c => negb (has_column df c)) required_cols in
  fold_left
    (fun issues c => add_issue issues None (Some c) Missing_required_column PNone)
    missing_required_cols issues.

(** Missing values in required columns. *)
Definition check_missing_values (df : DataFrame) (required_cols : list string)
  (issues : list Issue) : list Issue :=
  let present_required_cols := filter (has_column df) required_cols in
  fold_left
    (fun issues c =>
       let missing_mask := isna (getitem df c) in
       fold_left
         (fun issues idx =>
            add_issue issues (Some idx) (Some c) Missing_value PNone)
         (index_where missing_mask) issues)
    present_required_cols issues.

(** Duplicate check. [if unique_key_cols:] holds for a list that is given
    and not empty. *)
Definition check_duplicates (df : DataFrame)
  (unique_key_cols : option (list string)) (issues : list Issue)
  : list Issue :=
  match unique_key_cols with
  | Some ((_ :: _) as unique_key_cols) =>
      let key_cols := filter (has_column df) unique_key_cols in
      let issues :=
        fold_left
          (fun issues c =>
             if negb (has_column df c)
             then add_issue issues None (Some c)
                    Missing_key_column_for_duplicate_check PNone
             else issues)
          unique_key_cols issues in
      match key_cols with
      | _ :: _ =>
          let dup_mask := duplicated df key_cols in
          fold_left
            (fun issues idx =>
               add_issue issues (Some idx) (Some (String.concat "," key_cols))
                 Duplicate_key (PDict (loc_to_dict df idx key_cols)))
            (index_where dup_mask) issues
      | [] => issues
      end
  | _ =>
      let dup_mask := duplicated df (columns df) in
      fold_left
        (fun issues idx => add_issue issues (Some idx) None Duplicate_row PNone)
        (index_where dup_mask) issues
  end.

(** Type checks: the body of the loop over [expected_types.items()]. *)
Definition check_type (df : DataFrame) (issues : list Issue)
  (item : string * string) : list Issue :=
  let col := fst item in
  let type_name := snd item in
  if negb (has_column df col) then issues
  else
    let non_missing := dropna (getitem df col) in
    let report (bad : Series bool) :=
      fold_left
        (fun issues idx =>
           add_issue issues (Some idx) (Some col) (Type_mismatch type_name)
             (PCell (at_ df idx col)))
        (index_where bad) issues in
    if String.eqb type_name "int" || String.eqb type_name "float" then
      let converted := to_numeric non_missing in
      report (isna_numeric converted)
    else if String.eqb type_name "datetime" then
      report (to_datetime_isna non_missing)
    else if String.eqb type_name "string" then
      report (map (fun iv => (fst iv, is_container (snd iv))) non_missing)
    else
      add_issue issues None (Some col) (Unknown_expected_type type_name) PNone.

Definition check_types (df : DataFrame) (expected_types : list (string * string))
  (issues : list Issue) : list Issue :=
  fold_left (check_type df) expected_types issues.

(** Range checks: the body of the loop over [ranges.items()]. *)
Definition check_range (df : DataFrame) (issues : list Issue)
  (item : string * (option Q * option Q)) : list Issue :=
  let col := fst item in
  let min_val := fst (snd item) in
  let max_val := snd (snd item) in
  if negb (has_column df col) then issues
  else
    let numeric := to_numeric (getitem df col) in
    let issues :=
      match min_val with
      | Some min_val =>
          let bad := lt_scalar numeric min_val in
          fold_left
            (fun issues idx =>
               add_issue issues (Some idx) (Some col) (Value_below_min min_val)
                 (PCell (at_ df idx col)))
            (index_where bad) issues
      | None => issues
      end in
    match max_val with
    | Some max_val =>
        let bad := gt_scalar numeric max_val in
        fold_left
          (fun issues idx =>
             add_issue issues (Some idx) (Some col) (Value_above_max max_val)
               (PCell (at_ df idx col)))
          (index_where bad) issues
    | None => issues
    end.

Definition check_ranges (df : DataFrame)
  (ranges : list (string * (option Q * option Q))) (issues : list Issue)
  : list Issue :=
  fold_left (check_range df) ranges issues.

(** Allowed values: the body of the loop over [allowed_values.items()]. *)
Definition check_allowed (df : DataFrame) (issues : list Issue)
  (item : string * list scalar) : list Issue :=
  let col := fst item in
  let allowed := snd item in
  if negb (has_column df col) then issues
  else
    let bad := and_ (invert (isin (getitem df col) allowed))
                    (invert (isna (getitem df col))) in
    fold_left
      (fun issues idx =>
         add_issue issues (Some idx) (Some col) (Value_not_allowed allowed)
           (PCell (at_ df idx col)))
      (index_where bad) issues.

Definition check_allowed_values (df : DataFrame)
  (allowed_values : list (string * list scalar)) (issues : list Issue)
  : list Issue :=
  fold_left (check_allowed df) allowed_values issues.

(** Email check. [if email_cols:] holds for a list that is given and not
    empty. *)
Definition check_email (df : DataFrame) (issues : list Issue) (col : string)
  : list Issue :=
  if negb (has_column df col) then issues
  else
    let s := dropna (getitem df col) in
    let bad_mask := invert (astype_str_contains_at s) in
    fold_left
      (fun issues idx =>
         add_issue issues (Some idx) (Some col) Invalid_email
           (PCell (at_ df idx col)))
      (index_where bad_mask) issues.

Definition check_emails (df : DataFrame) (email_cols : option (list string))
  (issues : list Issue) : list Issue :=
  match email_cols with
  | Some ((_ :: _) as email_cols) => fold_left (check_email df) email_cols issues
  | _ => issues
  end.

Definition validate_dataframe (df : DataFrame)
  (required_cols : list string)
  (expected_types : list (string * string))
  (ranges : list (string * (option Q * option Q)))
  (allowed_values : list (string * list scalar))
  (unique_key_cols : option (list string))
  (email_cols : option (list string))
  : list Issue * Summary :=
  let issues : list Issue := [] in
  let issues := check_required_cols df required_cols issues in
  let issues := check_missing_values df required_cols issues in
  let issues := check_duplicates df unique_key_cols issues in
  let issues := check_types df expected_types issues in
  let issues := check_ranges df ranges issues in
  let issues := check_allowed_values df allowed_values issues in
  let issues := check_emails df email_cols issues in
  let summary :=
    {| summary_rows := len df;
       summary_cols := List.length (columns df);
       total_issues := List.length issues;
       issue_types :=
         match issues with
         | [] => []
         | _ :: _ => value_counts (map issue issues)
         end |} in
  (issues, summary).


(** *** What each block of [validate_dataframe] appends

    The lists of issues below are what the blocks add to the accumulator;
    [validate_issues] further down proves that the accumulator threaded
    through [validate_dataframe] ends as their concatenation. *)

Definition required_issues (df : DataFrame) (required_cols : list string)
  : list Issue :=
  map (fun c => Build_Issue None (Some c) Missing_required_column PNone)
      (filter (fun c => negb (has_column df c)) required_cols).

Definition missing_value_issues (df : DataFrame) (required_cols : list string)
  : list Issue :=
  flat_map
    (fun c => map (fun idx => Build_Issue (Some idx) (Some c) Missing_value PNone)
                  (index_where (isna (getitem df c))))
    (filter (has_column df) required_cols).

Definition missing_key_issues (df : DataFrame) (unique_key_cols : list string)
  : list Issue :=
  map (fun c => Build_Issue None (Some c)
                  Missing_key_column_for_duplicate_check PNone)
      (filter (fun c => negb (has_column df c)) unique_key_cols).

Definition duplicate_key_issue (df : DataFrame) (key_cols : list string)
  (idx : nat) : Issue :=
  Build_Issue (Some idx) (Some (String.concat "," key_cols)) Duplicate_key
    (PDict (loc_to_dict df idx key_cols)).

Definition duplicate_row_issue (idx : nat) : Issue :=
  Build_Issue (Some idx) None Duplicate_row PNone.

Definition duplicate_key_issues (df : DataFrame) (unique_key_cols : list string)
  : list Issue :=
  match filter (has_column df) unique_key_cols with
  | [] => []
  | key_cols =>
      map (duplicate_key_issue df key_cols)
          (index_where (duplicated df key_cols))
  end.

Definition duplicate_issues (df : DataFrame)
  (unique_key_cols : option (list string)) : list Issue :=
  match unique_key_cols with
  | Some ((_ :: _) as unique_key_cols) =>
      missing_key_issues df unique_key_cols
      ++ duplicate_key_issues df unique_key_cols
  | _ => map duplicate_row_issue (index_where (duplicated df (columns df)))
  end.

Definition type_mismatch_issues (df : DataFrame) (col type_name : string)
  (bad : Series bool) : list Issue :=
  map (fun idx => Build_Issue (Some idx) (Some col) (Type_mismatch type_name)
                    (PCell (at_ df idx col)))
      (index_where bad).

Definition unknown_type_issue (col type_name : string) : Issue :=
  Build_Issue None (Some col) (Unknown_expected_type type_name) PNone.

Definition type_issues_of (df : DataFrame) (item : string * string)
  : list Issue :=
  let col := fst item in
  let type_name := snd item in
  if negb (has_column df col) then []
  else
    let non_missing := dropna (getitem df col) in
    if String.eqb type_name "int" || String.eqb type_name "float" then
      type_mismatch_issues df col type_name
        (isna_numeric (to_numeric non_missing))
    else if String.eqb type_name "datetime" then
      type_mismatch_issues df col type_name (to_datetime_isna non_missing)
    else if String.eqb type_name "string" then
      type_mismatch_issues df col type_name
        (map (fun iv => (fst iv, is_container (snd iv))) non_missing)
    else [unknown_type_issue col type_name].

Definition below_min_issue (df : DataFrame) (col : string) (min_val : Q)
  (idx : nat) : Issue :=
  Build_Issue (Some idx) (Some col) (Value_below_min min_val)
    (PCell (at_ df idx col)).

Definition above_max_issue (df : DataFrame) (col : string) (max_val : Q)
  (idx : nat) : Issue :=
  Build_Issue (Some idx) (Some col) (Value_above_max max_val)
    (PCell (at_ df idx col)).

Definition range_issues_of (df : DataFrame)
  (item : string * (option Q * option Q)) : list Issue :=
  let col := fst item in
  if negb (has_column df col) then []
  else
    let numeric := to_numeric (getitem df col) in
    match fst (snd item) with
    | Some min_val =>
        map (below_min_issue df col min_val)
            (index_where (lt_scalar numeric min_val))
    | None => []
    end
    ++
    match snd (snd item) with
    | Some max_val =>
        map (above_max_issue df col max_val)
            (index_where (gt_scalar numeric max_val))
    | None => []
    end.

Definition allowed_issues_of (df : DataFrame) (item : string * list scalar)
  : list Issue :=
  let col := fst item in
  let allowed := snd item in
  if negb (has_column df col) then []
  else
    map (fun idx => Build_Issue (Some idx) (Some col) (Value_not_allowed allowed)
                      (PCell (at_ df idx col)))
        (index_where (and_ (invert (isin (getitem df col) allowed))
                           (invert (isna (getitem df col))))).

Definition email_issues_of (df : DataFrame) (col : string) : list Issue :=
  if negb (has_column df col) then []
  else
    map (fun idx => Build_Issue (Some idx) (Some col) Invalid_email
                      (PCell (at_ df idx col)))
        (index_where (invert (astype_str_contains_at (dropna (getitem df col))))).

Definition email_issues (df : DataFrame) (email_cols : option (list string))
  : list Issue :=
  match email_cols with
  | Some ((_ :: _) as email_cols) => flat_map (email_issues_of df) email_cols
  | _ => []
  end.

Definition all_issues (df : DataFrame)
  (required_cols : list string)
  (expected_types : list (string * string))
  (ranges : list (string * (option Q * option Q)))
  (allowed_values : list (string * list scalar))
  (unique_key_cols : option (list string))
  (email_cols : option (list string)) : list Issue :=
  required_issues df required_cols
  ++ missing_value_issues df required_cols
  ++ duplicate_issues df unique_key_cols
  ++ flat_map (type_issues_of df) expected_types
  ++ flat_map (range_issues_of df) ranges
  ++ flat_map (allowed_issues_of df) allowed_values
  ++ email_issues df email_cols.

End Validator.

(** ** [issues_to_df] *)

(** What a cell of the exported table holds: one of the four fields of an
    issue, or nothing when a record has no item for the column. *)
Inductive field : Type :=
| FRowIndex (i : option nat)
| FColumn (c : option string)
| FIssue (m : message)
| FValue (v : payload)
| FAbsent.

Record Table : Type := {
  table_columns : list string;
  table_rows : list (list field)
}.

(** The keys of a list of dicts in the order in which they first appear. *)
Fixpoint first_seen (seen : list string) (keys : list string) : list string :=
  match keys with
  | [] => seen
  | k :: keys' =>
      if existsb (String.eqb k) seen
      then first_seen seen keys'
      else first_seen (seen ++ [k]) keys'
  end.

(** [pd.DataFrame(records)] for a list of dicts: the columns are the keys of
    the records in the order in which they first appear, each record is a
    row. A list with no record gives a frame with no column. *)
Definition DataFrame_of_records (records : list (list (string * field)))
  : Table :=
  let cols := first_seen [] (flat_map (map fst) records) in
  {| table_columns := cols;
     table_rows :=
       map (fun r => map (fun c => match lookup c r with
                                   | Some f => f
                                   | None => FAbsent
                                   end) cols) records |}.

(** The dict [issues_to_df] builds for an issue. *)
Definition issue_record (i : Issue) : list (string * field) :=
  [("row_index", FRowIndex (row_index i));
   ("column", FColumn (column i));
   ("issue", FIssue (issue i));
   ("value", FValue (value i))].

Definition issues_to_df (issues : list Issue) : Table :=
  DataFrame_of_records (map issue_record issues).

(** ** The Python string methods the rule parsers use

    A Python string is modelled by a [string] whose characters are the code
    points below 256, one [ascii] each; rule texts with other characters are
    outside the model. *)

Module py.

(** [c.isspace()] for a code point below 256: tab to carriage return, the
    four separators 28 to 31, the space, NEL and the no-break space. *)
Definition isspace (c : ascii) : bool :=
  let n := nat_of_ascii c in
  ((9 <=? n) && (n <=? 13)) || ((28 <=? n) && (n <=? 32))
  || (n =? 133) || (n =? 160).

(** [s.lstrip()] *)
Fixpoint lstrip (s : string) : string :=
  match s with
  | EmptyString => EmptyString
  | String c s' => if isspace c then lstrip s' else s
  end.

(** [s.rstrip()] *)
Fixpoint rstrip (s : string) : string :=
  match s with
  | EmptyString => EmptyString
  | String c s' =>
      match rstrip s' with
      | EmptyString => if isspace c then EmptyString else String c EmptyString
      | r => String c r
      end
  end.

(** [s.strip()] *)
Definition strip (s : string) : string := rstrip (lstrip s).

(** The truth value of a string: it is not empty. *)
Definition nonempty (s : string) : bool :=
  match s with
  | EmptyString => false
  | String _ _ => true
  end.

(** [sep in s] for a separator of one character. *)
Fixpoint contains (sep : ascii) (s : string) : bool :=
  match s with
  | EmptyString => false
  | String c s' => Ascii.eqb c sep || contains sep s'
  end.

(** [s.split(sep)] for a separator of one character: at least one part. *)
Fixpoint split (sep : ascii) (s : string) : list string :=
  match s with
  | EmptyString => [EmptyString]
  | String c s' =>
      if Ascii.eqb c sep then EmptyString :: split sep s'
      else
        match split sep s' with
        | p :: ps => String c p :: ps
        | [] => [String c EmptyString]
        end
  end.

(** [s.split(sep, 1)]: the text before the first separator and the text
    after it, or the whole text when it has no separator. *)
Fixpoint split_once (sep : ascii) (s : string) : list string :=
  match s with
  | EmptyString => [EmptyString]
  | String c s' =>
      if Ascii.eqb c sep then [EmptyString; s']
      else
        match split_once sep s' with
        | p :: ps => String c p :: ps
        | [] => [String c EmptyString]
        end
  end.

(** The line boundaries of [splitlines] below 256: line feed, vertical tab,
    form feed, carriage return, the separators 28 to 30 and NEL. *)
Definition is_linebreak (c : ascii) : bool :=
  let n := nat_of_ascii c in
  ((10 <=? n) && (n <=? 13)) || ((28 <=? n) && (n <=? 30)) || (n =? 133).

(** [s.splitlines()], with the line read so far in [cur]: a carriage return
    followed by a line feed is one boundary, and a text that ends at a
    boundary has no empty last line. *)
Fixpoint splitlines_from (cur : string) (s : string) : list string :=
  match s with
  | EmptyString =>
      match cur with
      | EmptyString => []
      | _ => [cur]
      end
  | String c s' =>
      if is_linebreak c then
        cur :: match s' with
               | String c' s'' =>
                   if Ascii.eqb c "013"%char && Ascii.eqb c' "010"%char
                   then splitlines_from EmptyString s''
                   else splitlines_from EmptyString s'
               | EmptyString => []
               end
      else splitlines_from (cur ++ String c EmptyString) s'
  end.

Definition splitlines (s : string) : list string :=
  splitlines_from EmptyString s.

(** [d[k] = v] on a dict kept as the list of its items in insertion order:
    the value of a key that is there is replaced in place, a new key goes
    to the end. *)
Fixpoint dict_set (A : Type) (k : string) (v : A) (d : list (string * A))
  : list (string * A) :=
  match d with
  | [] => [(k, v)]
  | (k', v') :: d' =>
      if String.eqb k k' then (k, v) :: d' else (k', v') :: dict_set k v d'
  end.

End py.

(** ** The rule parsers *)

(** [[l.strip() for l in text.splitlines() if l.strip()]] *)
Definition stripped_lines (text : string) : list string :=
  filter py.nonempty (map py.strip (py.splitlines text)).

(** The body of the loop of [parse_expected_types]; [None] stands for the
    ValueError of the unpacking [col, t = ...]. *)
Definition parse_expected_types_line (out : list (string * string))
  (line : string) : option (list (string * string)) :=
  if negb (py.contains ":"%char line) then Some out
  else
    match py.split_once ":"%char line with
    | [col; t] => Some (py.dict_set (py.strip col) (py.strip t) out)
    | _ => None
    end.

(** A loop whose body may raise: the first failure ends it. *)
Fixpoint for_each (A D : Type) (body : D -> A -> option D) (xs : list A)
  (out : D) : option D :=
  match xs with
  | [] => Some out
  | x :: xs' =>
      match body out x with
      | Some out' => for_each body xs' out'
      | None => None
      end
  end.

Definition parse_expected_types (text : string)
  : option (list (string * string)) :=
  for_each parse_expected_types_line (stripped_lines text) [].

Section Ranges.

(** The type of Python's floats and [float(s)] on a string, [None] standing
    for its ValueError. *)
Variable float : Type.
Variable float_of : string -> option float.

(** [float(s) if s.strip() != "" else None], outer [None] for a
    ValueError. *)
Definition bound_of (s : string) : option (option float) :=
  if py.nonempty (py.strip s)
  then match float_of s with
       | Some x => Some (Some x)
       | None => None
       end
  else Some None.

(** The body of the loop of [parse_ranges]. *)
Definition parse_ranges_line (out : list (string * (option float * option float)))
  (line : string) : option (list (string * (option float * option float))) :=
  match py.split ":"%char line with
  | [col; mn; mx] =>
      match bound_of mn with
      | Some mn_val =>
          match bound_of mx with
          | Some mx_val => Some (py.dict_set (py.strip col) (mn_val, mx_val) out)
          | None => None
          end
      | None => None
      end
  | _ => Some out
  end.

Definition parse_ranges (text : string)
  : option (list (string * (option float * option float))) :=
  for_each parse_ranges_line (stripped_lines text) [].

End Ranges.

(** [[v.strip() for v in vals.split(",") if v.strip() != ""]] *)
Definition stripped_items (vals : string) : list string :=
  filter py.nonempty (map py.strip (py.split ","%char vals)).

(** The body of the loop of [parse_allowed_values]. *)
Definition parse_allowed_values_line (out : list (string * list string))
  (line : string) : option (list (string * list string)) :=
  if negb (py.contains "="%char line) then Some out
  else
    match py.split_once "="%char line with
    | [col; vals] => Some (py.dict_set (py.strip col) (stripped_items vals) out)
    | _ => None
    end.

Definition parse_allowed_values (text : string)
  : option (list (string * list string)) :=
  for_each parse_allowed_values_line (stripped_lines text) [].

(** ** [validate_dataframe] with its exception

    [pd.to_datetime(s, errors="coerce", utc=False)] turns a text it cannot
    read into NaT, but there are columns on which it raises a ValueError
    instead of returning (texts with different UTC offsets are such a
    column).  Nothing in [validate_dataframe] catches an exception, so the
    call ends there without a result.  It is the one exception of the
    model. *)

Section Call.

Variable text_to_number : string -> option Q.
Variable datetime_unread : list scalar -> scalar -> bool.

(** Whether [pd.to_datetime(s, errors="coerce", utc=False)] raises, given
    the items of [s]. *)
Variable datetime_raises : list scalar -> bool.

(** Whether the body of the type loop raises on an item: its column is in
    the frame, its type is "datetime", and [pd.to_datetime] raises on
    [non_missing]. *)
Definition to_datetime_raises (df : DataFrame) (item : string * string)
  : bool :=
  let col := fst item in
  let type_name := snd item in
  has_column df col
  && String.eqb type_name "datetime"
  && datetime_raises (map snd (dropna (getitem df col))).

(** The body of the type loop; [None] stands for the ValueError. *)
Definition check_type_call (df : DataFrame) (issues : list Issue)
  (item : string * string) : option (list Issue) :=
  if to_datetime_raises df item then None
  else Some (check_type text_to_number datetime_unread df issues item).

Definition check_types_call (df : DataFrame)
  (expected_types : list (string * string)) (issues : list Issue)
  : option (list Issue) :=
  for_each (check_type_call df) expected_types issues.

(** The call [validate_dataframe(df, ...)]: the blocks in the order of the
    source, the type checks ending the call when they raise. *)
Definition validate_dataframe_call (df : DataFrame)
  (required_cols : list string)
  (expected_types : list (string * string))
  (ranges : list (string * (option Q * option Q)))
  (allowed_values : list (string * list scalar))
  (unique_key_cols : option (list string))
  (email_cols : option (list string))
  : option (list Issue * Summary) :=
  let issues : list Issue := [] in
  let issues := check_required_cols df required_cols issues in
  let issues := check_missing_values df required_cols issues in
  let issues := check_duplicates df unique_key_cols issues in
  match check_types_call df expected_types issues with
  | None => None
  | Some issues =>
      let issues := check_ranges text_to_number df ranges issues in
      let issues := check_allowed_values df allowed_values issues in
      let issues := check_emails df email_cols issues in
      let summary :=
        {| summary_rows := len df;
           summary_cols := List.length (columns df);
           total_issues := List.length issues;
           issue_types :=
             match issues with
             | [] => []
             | _ :: _ => value_counts (map issue issues)
             end |} in
      Some (issues, summary)
  end.

End Call.

(** ** The call of [validate_dataframe] in the application *)

(** [[c.strip() for c in text.split(",") if c.strip()]] *)
Definition names_of (text : string) : list string :=
  filter py.nonempty (map py.strip (py.split ","%char text)).

(** [names if names else None] *)
Definition or_None (names : list string) : option (list string) :=
  match names with
  | [] => None
  | _ :: _ => Some names
  end.

Section Application.

Variable text_to_number : string -> option Q.
Variable datetime_unread : list scalar -> scalar -> bool.
Variable datetime_raises : list scalar -> bool.

(** [float(s)] for the texts of the bounds, [None] for its ValueError; a
    text Python reads as an infinity or as nan is outside the model. *)
Variable float_of : string -> option Q.

(** The body of [if uploaded:] from the frame read by [pd.read_csv] on,
    without the display: the six rule texts are parsed and the frame is
    validated. [None] stands for an exception, of a parser or of
    [validate_dataframe]. *)
Definition validate_upload (df : DataFrame)
  (required_cols_text unique_key_cols_text expected_types_text ranges_text
     allowed_values_text email_cols_text : string)
  : option (list Issue * Summary) :=
  let required_cols := names_of required_cols_text in
  let unique_key_cols := names_of unique_key_cols_text in
  let email_cols := names_of email_cols_text in
  match parse_expected_types expected_types_text with
  | None => None
  | Some expected_types =>
      match parse_ranges float_of ranges_text with
      | None => None
      | Some ranges =>
          match parse_allowed_values allowed_values_text with
          | None => None
          | Some allowed_values =>
              validate_dataframe_call text_to_number datetime_unread
                datetime_raises df required_cols expected_types ranges
                (map (fun item => (fst item, map VStr (snd item)))
                   allowed_values)
                (or_None unique_key_cols) (or_None email_cols)
          end
      end
  end.

End Application.

(** ** A sample instance of the conversions, for the examples *)

(** Reads an unsigned decimal text as a number; anything else is no number. *)
Fixpoint digits_value (acc : Z) (cs : list ascii) : option Z :=
  match cs with
  | [] => Some acc
  | c :: cs' =>
      let n := nat_of_ascii c in
      if (48 <=? n) && (n <=? 57)
      then digits_value (10 * acc + Z.of_nat (n - 48))%Z cs'
      else None
  end.

Definition sample_number (s : string) : option Q :=
  match list_ascii_of_string s with
  | [] => None
  | "-"%char :: ((_ :: _) as cs) =>
      option_map (fun z => inject_Z (- z)) (digits_value 0 cs)
  | cs => option_map inject_Z (digits_value 0 cs)
  end.

Definition sample_datetime_unread (col : list scalar) (v : scalar) : bool :=
  match v with
  | VStr _ => true
  | _ => false
  end.

(** The UTC offset a text ends with, as "+01:00" does. *)
Definition utc_offset (s : string) : option string :=
  match rev (list_ascii_of_string s) with
  | m2 :: m1 :: ":"%char :: h2 :: h1 :: sign :: _ =>
      if Ascii.eqb sign "+"%char || Ascii.eqb sign "-"%char
      then Some (string_of_list_ascii [sign; h1; h2; ":"%char; m1; m2])
      else None
  | _ => None
  end.

(** Raises on a column whose texts end with two different UTC offsets. *)
Definition sample_datetime_raises (col : list scalar) : bool :=
  let offsets :=
    flat_map (fun v => match v with
                       | VStr s => match utc_offset s with
                                   | Some o => [o]
                                   | None => []
                                   end
                       | _ => []
                       end) col in
  match offsets with
  | [] => false
  | o :: os => negb (forallb (String.eqb o) os)
  end.

Definition validate := validate_dataframe sample_number sample_datetime_unread.


(** ** Sample datasets *)

(** Two rows with the same id. *)
Definition scenario_A : DataFrame :=
  {| columns := ["id"; "email"; "age"];
     rows := [ [("id", VInt 1); ("email", VStr "a@x.com"); ("age", VInt 30)];
               [("id", VInt 1); ("email", VStr "bad"); ("age", VInt (-5))] ] |}.

(** One row whose age is no number. *)
Definition scenario_D : DataFrame :=
  {| columns := ["age"];
     rows := [ [("age", VStr "abc")] ] |}.

(** Two rows that are equal in every column. *)
Definition twins : DataFrame :=
  {| columns := ["a"; "b"];
     rows := [ [("a", VInt 1); ("b", VInt 2)];
               [("a", VInt 1); ("b", VInt 2)] ] |}.

(** Two rows that differ. *)
Definition two_people : DataFrame :=
  {| columns := ["id"; "name"];
     rows := [ [("id", VInt 1); ("name", VStr "Ann")];
               [("id", VInt 2); ("name", VStr "Bob")] ] |}.

(** Two rows with a missing id and the same name, and a third row. *)
Definition missing_ids : DataFrame :=
  {| columns := ["id"; "name"];
     rows := [ [("id", NaN); ("name", VStr "Ann")];
               [("id", NaN); ("name", VStr "Ann")];
               [("id", VFloat 3); ("name", VStr "Ann")] ] |}.

(** One row with an age between a crossed pair of bounds. *)
Definition one_age : DataFrame :=
  {| columns := ["age"];
     rows := [ [("age", VInt 50)] ] |}.

(** One row whose id is an integer of 54 bits, 2^53 + 1. *)
Definition big_id : DataFrame :=
  {| columns := ["id"];
     rows := [ [("id", VInt 9007199254740993)] ] |}.


(** One row whose level is a number. *)
Definition levels : DataFrame :=
  {| columns := ["level"];
     rows := [ [("level", VInt 1)] ] |}.

(** ** Vocabulary of the properties *)

(** [df.empty]: no row or no column. *)
Definition empty (df : DataFrame) : bool :=
  (len df =? 0) || (List.length (columns df) =? 0).

(** Python's truth value of an optional list: given and not empty. *)
Definition truthy (A : Type) (o : option (list A)) : bool :=
  match o with
  | Some (_ :: _) => true
  | _ => false
  end.

(** The columns over which the duplicate check groups the rows: the key
    columns that are present in keyed mode, all columns in whole-row mode. *)
Definition grouping_columns (df : DataFrame)
  (unique_key_cols : option (list string)) : list string :=
  match unique_key_cols with
  | Some ((_ :: _) as unique_key_cols) => filter (has_column df) unique_key_cols
  | _ => columns df
  end.

(** The number of rows of the frame with the same values as [r] in the
    columns of [subset]: the size of the group of [r]. *)
Definition group_size (df : DataFrame) (subset : list string) (r : Row) : nat :=
  List.length
    (filter (fun r' => key_eqb (key_of subset r) (key_of subset r')) (rows df)).

Definition is_duplicate_issue_at (idx : nat) (i : Issue) : bool :=
  match row_index i, issue i with
  | Some k, Duplicate_key => k =? idx
  | Some k, Duplicate_row => k =? idx
  | _, _ => false
  end.

Definition is_missing_key_issue (i : Issue) : bool :=
  match issue i with
  | Missing_key_column_for_duplicate_check => true
  | _ => false
  end.


(** [type_name in ("int", "float", "datetime", "string")] *)
Definition known_type (type_name : string) : bool :=
  String.eqb type_name "int" || String.eqb type_name "float"
  || String.eqb type_name "datetime" || String.eqb type_name "string".

Definition has_comma (s : string) : bool :=
  existsb (Ascii.eqb ","%char) (list_ascii_of_string s).

(** The block of [validate_dataframe] an issue text belongs to, in the order
    of the blocks. *)
Definition block_of (m : message) : nat :=
  match m with
  | Missing_required_column => 1
  | Missing_value => 2
  | Missing_key_column_for_duplicate_check => 3
  | Duplicate_key => 3
  | Duplicate_row => 3
  | Unknown_expected_type _ => 4
  | Type_mismatch _ => 4
  | Value_below_min _ => 5
  | Value_above_max _ => 5
  | Value_not_allowed _ => 6
  | Invalid_email => 7
  end.

(** ** The accumulator of [validate_dataframe] *)

Section Properties.

Variable text_to_number : string -> option Q.
Variable datetime_unread : list scalar -> scalar -> bool.

Lemma fold_left_emit (A : Type) (body : list Issue -> A -> list Issue)
  (emit : A -> list Issue) :
  (forall acc x, body acc x = acc ++ emit x) ->
  forall xs init, fold_left body xs init = init ++ flat_map emit xs.
Proof.
  intros Hbody xs.
  induction xs as [|x xs IH]; intros init; simpl.
  - now rewrite app_nil_r.
  - rewrite IH, Hbody, <- app_assoc. reflexivity.
Qed.

Lemma fold_left_add_issue (A : Type) (mk : A -> Issue) :
  forall xs init,
    fold_left (fun issues x =>
                 add_issue issues (row_index (mk x)) (column (mk x))
                   (issue (mk x)) (value (mk x))) xs init
    = init ++ map mk xs.
Proof.
  intros xs.
  induction xs as [|x xs IH]; intros init; simpl.
  - now rewrite app_nil_r.
  - rewrite IH. unfold add_issue. rewrite <- app_assoc.
    destruct (mk x); reflexivity.
Qed.

Lemma check_required_cols_emits df required_cols issues :
  check_required_cols df required_cols issues
  = issues ++ required_issues df required_cols.
Proof.
  unfold check_required_cols, required_issues.
  apply (fold_left_add_issue
           (fun c => Build_Issue None (Some c) Missing_required_column PNone)).
Qed.

Lemma check_missing_values_emits df required_cols issues :
  check_missing_values df required_cols issues
  = issues ++ missing_value_issues df required_cols.
Proof.
  unfold check_missing_values, missing_value_issues.
  apply fold_left_emit. intros acc c.
  apply (fold_left_add_issue
           (fun idx => Build_Issue (Some idx) (Some c) Missing_value PNone)).
Qed.

Lemma missing_key_loop_emits df unique_key_cols issues :
  fold_left
    (fun issues c =>
       if negb (has_column df c)
       then add_issue issues None (Some c)
              Missing_key_column_for_duplicate_check PNone
       else issues)
    unique_key_cols issues
  = issues ++ missing_key_issues df unique_key_cols.
Proof.
  unfold missing_key_issues. revert issues.
  induction unique_key_cols as [|c cs IH]; intros issues; simpl.
  - now rewrite app_nil_r.
  - rewrite IH. destruct (has_column df c); simpl.
    + reflexivity.
    + unfold add_issue. now rewrite <- app_assoc.
Qed.

Lemma check_duplicates_emits df unique_key_cols issues :
  check_duplicates df unique_key_cols issues
  = issues ++ duplicate_issues df unique_key_cols.
Proof.
  unfold check_duplicates, duplicate_issues.
  destruct unique_key_cols as [[|k ks]|].
  - apply (fold_left_add_issue duplicate_row_issue).
  - rewrite missing_key_loop_emits. unfold duplicate_key_issues.
    destruct (filter (has_column df) (k :: ks)) as [|c cs] eqn:Hkeys.
    + now rewrite app_nil_r.
    + etransitivity.
      * apply (fold_left_add_issue (duplicate_key_issue df (c :: cs))).
      * now rewrite <- app_assoc.
  - apply (fold_left_add_issue duplicate_row_issue).
Qed.

Lemma check_type_emits df issues item :
  check_type text_to_number datetime_unread df issues item
  = issues ++ type_issues_of text_to_number datetime_unread df item.
Proof.
  unfold check_type, type_issues_of, type_mismatch_issues.
  destruct (negb (has_column df (fst item))).
  - now rewrite app_nil_r.
  - repeat match goal with
           | |- context [if ?b then _ else _] => destruct b
           end;
      try reflexivity;
      apply (fold_left_add_issue
               (fun idx => Build_Issue (Some idx) (Some (fst item))
                             (Type_mismatch (snd item))
                             (PCell (at_ df idx (fst item))))).
Qed.

Lemma below_min_loop_emits df col min_val idxs issues :
  fold_left
    (fun issues idx =>
       add_issue issues (Some idx) (Some col) (Value_below_min min_val)
         (PCell (at_ df idx col))) idxs issues
  = issues ++ map (below_min_issue df col min_val) idxs.
Proof. apply (fold_left_add_issue (below_min_issue df col min_val)). Qed.

Lemma above_max_loop_emits df col max_val idxs issues :
  fold_left
    (fun issues idx =>
       add_issue issues (Some idx) (Some col) (Value_above_max max_val)
         (PCell (at_ df idx col))) idxs issues
  = issues ++ map (above_max_issue df col max_val) idxs.
Proof. apply (fold_left_add_issue (above_max_issue df col max_val)). Qed.

Lemma check_range_emits df issues item :
  check_range text_to_number df issues item
  = issues ++ range_issues_of text_to_number df item.
Proof.
  unfold check_range, range_issues_of.
  destruct (negb (has_column df (fst item))).
  - now rewrite app_nil_r.
  - destruct item as [col [[mn|] [mx|]]]; cbn [fst snd];
      rewrite ?above_max_loop_emits, ?below_min_loop_emits,
        ?app_nil_r, <- ?app_assoc; reflexivity.
Qed.

Lemma check_allowed_emits df issues item :
  check_allowed df issues item = issues ++ allowed_issues_of df item.
Proof.
  unfold check_allowed, allowed_issues_of.
  destruct (negb (has_column df (fst item))).
  - now rewrite app_nil_r.
  - apply (fold_left_add_issue
             (fun idx => Build_Issue (Some idx) (Some (fst item))
                           (Value_not_allowed (snd item))
                           (PCell (at_ df idx (fst item))))).
Qed.

Lemma check_email_emits df issues col :
  check_email df issues col = issues ++ email_issues_of df col.
Proof.
  unfold check_email, email_issues_of.
  destruct (negb (has_column df col)).
  - now rewrite app_nil_r.
  - apply (fold_left_add_issue
             (fun idx => Build_Issue (Some idx) (Some col) Invalid_email
                           (PCell (at_ df idx col)))).
Qed.

Lemma check_emails_emits df email_cols issues :
  check_emails df email_cols issues = issues ++ email_issues df email_cols.
Proof.
  unfold check_emails, email_issues.
  destruct email_cols as [[|c cs]|]; rewrite ?app_nil_r; try reflexivity.
  apply fold_left_emit, check_email_emits.
Qed.

(** The issue list [validate_dataframe] returns is the concatenation of what
    its blocks emit, in the order of the blocks. *)
Lemma validate_issues df required_cols expected_types ranges allowed_values
  unique_key_cols email_cols :
  fst (validate_dataframe text_to_number datetime_unread df required_cols
         expected_types ranges allowed_values unique_key_cols email_cols)
  = all_issues text_to_number datetime_unread df required_cols expected_types
      ranges allowed_values unique_key_cols email_cols.
Proof.
  unfold validate_dataframe, all_issues. cbn [fst].
  rewrite check_emails_emits.
  unfold check_allowed_values.
  rewrite (fold_left_emit _ _ (check_allowed_emits df)).
  unfold check_ranges.
  rewrite (fold_left_emit _ _ (check_range_emits df)).
  unfold check_types.
  rewrite (fold_left_emit _ _ (check_type_emits df)).
  rewrite check_duplicates_emits, check_missing_values_emits,
    check_required_cols_emits.
  cbn [app]. rewrite <- !app_assoc. reflexivity.
Qed.


(** *** Reading a Series *)

Lemma in_combine_seq (A : Type) (l : list A) :
  forall s i x,
    In (i, x) (combine (seq s (List.length l)) l)
    <-> s <= i /\ nth_error l (i - s) = Some x.
Proof.
  induction l as [|a l IH]; intros s i x; simpl.
  - split; [tauto|]. intros [_ H]. destruct (i - s); discriminate.
  - rewrite IH. split.
    + intros [H | [Hle H]].
      * inversion H; subst. rewrite Nat.sub_diag. auto.
      * split; [lia|]. replace (i - s) with (S (i - S s)) by lia. exact H.
    + intros [Hle H]. destruct (Nat.eq_dec s i) as [->|Hne].
      * rewrite Nat.sub_diag in H. simpl in H. left. congruence.
      * right. split; [lia|].
        replace (i - s) with (S (i - S s)) in H by lia. exact H.
Qed.

Lemma in_indexed_map (A : Type) (f : Row -> A) df i x :
  In (i, x) (combine (index df) (map f (rows df)))
  <-> exists r, nth_error (rows df) i = Some r /\ x = f r.
Proof.
  unfold index, len. rewrite <- (length_map f (rows df)).
  rewrite in_combine_seq, Nat.sub_0_r, nth_error_map.
  destruct (nth_error (rows df) i) as [r|]; simpl; split.
  - intros [_ H]. exists r. split; congruence.
  - intros [r' [H1 H2]]. split; [lia|]. congruence.
  - intros [_ H]. discriminate.
  - intros [r' [H1 _]]. discriminate.
Qed.

Lemma in_getitem df col i v :
  In (i, v) (getitem df col)
  <-> exists r, nth_error (rows df) i = Some r /\ v = cell r col.
Proof. apply (in_indexed_map (fun r => cell r col)). Qed.

Lemma at_of_row df i r col :
  nth_error (rows df) i = Some r -> at_ df i col = cell r col.
Proof. unfold at_. now intros ->. Qed.

Lemma in_index_where (m : Series bool) idx :
  In idx (index_where m) <-> In (idx, true) m.
Proof.
  unfold index_where. rewrite in_map_iff. split.
  - intros [[i b] [Hi Hin]]. apply filter_In in Hin.
    simpl in *. destruct Hin as [Hin Hb]. subst. exact Hin.
  - intros Hin. exists (idx, true). split; [reflexivity|].
    apply filter_In. auto.
Qed.

Lemma in_mapped_series (A B : Type) (f : A -> B) (s : Series A) i b :
  In (i, b) (map (fun ia => (fst ia, f (snd ia))) s)
  <-> exists a, In (i, a) s /\ b = f a.
Proof.
  rewrite in_map_iff. split.
  - intros [[j a] [Heq Hin]]. simpl in Heq. inversion Heq; subst. eauto.
  - intros [a [Hin ->]]. exists (i, a). auto.
Qed.

Lemma in_dropna (s : Series scalar) i v :
  In (i, v) (dropna s) <-> In (i, v) s /\ isna_value v = false.
Proof.
  unfold dropna. rewrite filter_In. simpl.
  rewrite negb_true_iff. reflexivity.
Qed.

Lemma combine_map_same (A B C : Type) (f : A -> B) (g : A -> C) (l : list A) :
  combine (map f l) (map g l) = map (fun x => (f x, g x)) l.
Proof. induction l as [|a l IH]; simpl; [reflexivity | now rewrite IH]. Qed.

Lemma not_allowed_mask (s : Series scalar) allowed :
  and_ (invert (isin s allowed)) (invert (isna s))
  = map (fun iv => (fst iv,
                    negb (existsb (value_eqb (snd iv)) allowed)
                    && negb (isna_value (snd iv)))) s.
Proof.
  unfold and_, invert, isin, isna. rewrite !map_map, combine_map_same, map_map.
  reflexivity.
Qed.

(** *** Where an issue of the result comes from *)

Section Emitted.

Variable df : DataFrame.
Variable required_cols : list string.
Variable expected_types : list (string * string).
Variable ranges : list (string * (option Q * option Q)).
Variable allowed_values : list (string * list scalar).
Variable unique_key_cols : option (list string).
Variable email_cols : option (list string).

(** One constructor for each call of [add_issue] in [validate_dataframe],
    with the conditions under which the call is reached. *)
Inductive emitted : Issue -> Prop :=
| E_required_column c :
    In c required_cols -> has_column df c = false ->
    emitted (Build_Issue None (Some c) Missing_required_column PNone)
| E_missing_value c idx r :
    In c required_cols -> has_column df c = true ->
    nth_error (rows df) idx = Some r -> isna_value (cell r c) = true ->
    emitted (Build_Issue (Some idx) (Some c) Missing_value PNone)
| E_missing_key_column ks c :
    unique_key_cols = Some ks -> In c ks -> has_column df c = false ->
    emitted (Build_Issue None (Some c)
               Missing_key_column_for_duplicate_check PNone)
| E_duplicate_key ks idx :
    unique_key_cols = Some ks ->
    filter (has_column df) ks <> [] ->
    In (idx, true) (duplicated df (filter (has_column df) ks)) ->
    emitted (duplicate_key_issue df (filter (has_column df) ks) idx)
| E_duplicate_row idx :
    truthy unique_key_cols = false ->
    In (idx, true) (duplicated df (columns df)) ->
    emitted (duplicate_row_issue idx)
| E_type_mismatch col type_name idx r :
    In (col, type_name) expected_types -> has_column df col = true ->
    known_type type_name = true ->
    nth_error (rows df) idx = Some r -> isna_value (cell r col) = false ->
    emitted (Build_Issue (Some idx) (Some col) (Type_mismatch type_name)
               (PCell (at_ df idx col)))
| E_unknown_type col type_name :
    In (col, type_name) expected_types -> has_column df col = true ->
    known_type type_name = false ->
    emitted (unknown_type_issue col type_name)
| E_below_min col min_val max_val idx r x :
    In (col, (Some min_val, max_val)) ranges -> has_column df col = true ->
    nth_error (rows df) idx = Some r ->
    to_numeric_value text_to_number (cell r col) = Some x ->
    Qltb x min_val = true ->
    emitted (below_min_issue df col min_val idx)
| E_above_max col min_val max_val idx r x :
    In (col, (min_val, Some max_val)) ranges -> has_column df col = true ->
    nth_error (rows df) idx = Some r ->
    to_numeric_value text_to_number (cell r col) = Some x ->
    Qltb max_val x = true ->
    emitted (above_max_issue df col max_val idx)
| E_not_allowed col allowed idx r :
    In (col, allowed) allowed_values -> has_column df col = true ->
    nth_error (rows df) idx = Some r ->
    isna_value (cell r col) = false ->
    existsb (value_eqb (cell r col)) allowed = false ->
    emitted (Build_Issue (Some idx) (Some col) (Value_not_allowed allowed)
               (PCell (at_ df idx col)))
| E_invalid_email cs col idx r :
    email_cols = Some cs -> In col cs -> has_column df col = true ->
    nth_error (rows df) idx = Some r ->
    isna_value (cell r col) = false ->
    has_at_sign (cell r col) = false ->
    emitted (Build_Issue (Some idx) (Some col) Invalid_email
               (PCell (at_ df idx col))).

Lemma required_issues_emitted i :
  In i (required_issues df required_cols) -> emitted i.
Proof.
  unfold required_issues. rewrite in_map_iff.
  intros [c [<- Hc]]. apply filter_In in Hc. destruct Hc as [Hc Hno].
  apply negb_true_iff in Hno. now apply E_required_column.
Qed.

Lemma missing_value_issues_emitted i :
  In i (missing_value_issues df required_cols) -> emitted i.
Proof.
  unfold missing_value_issues. rewrite in_flat_map.
  intros [c [Hc Hi]]. apply filter_In in Hc. destruct Hc as [Hc Hhas].
  apply in_map_iff in Hi. destruct Hi as [idx [<- Hidx]].
  apply in_index_where in Hidx. unfold isna in Hidx.
  apply in_mapped_series in Hidx. destruct Hidx as [v [Hv Hna]].
  apply in_getitem in Hv. destruct Hv as [r [Hr ->]].
  now apply E_missing_value with (r := r).
Qed.

Lemma duplicate_issues_emitted i :
  In i (duplicate_issues df unique_key_cols) -> emitted i.
Proof.
  unfold duplicate_issues.
  destruct unique_key_cols as [[|k ks]|] eqn:Huk.
  - rewrite in_map_iff. intros [idx [<- Hidx]].
    apply in_index_where in Hidx.
    apply E_duplicate_row; [now rewrite Huk | exact Hidx].
  - rewrite in_app_iff. intros [Hi | Hi].
    + unfold missing_key_issues in Hi. apply in_map_iff in Hi.
      destruct Hi as [c [<- Hc]]. apply filter_In in Hc.
      destruct Hc as [Hc Hno]. apply negb_true_iff in Hno.
      now apply E_missing_key_column with (ks := k :: ks).
    + unfold duplicate_key_issues in Hi.
      destruct (filter (has_column df) (k :: ks)) as [|c cs] eqn:Hkeys;
        [contradiction|].
      apply in_map_iff in Hi. destruct Hi as [idx [<- Hidx]].
      apply in_index_where in Hidx. rewrite <- Hkeys in *.
      apply E_duplicate_key; [exact Huk | | exact Hidx].
      rewrite Hkeys. discriminate.
  - rewrite in_map_iff. intros [idx [<- Hidx]].
    apply in_index_where in Hidx.
    apply E_duplicate_row; [now rewrite Huk | exact Hidx].
Qed.

Lemma known_type_cases type_name :
  known_type type_name
  = (String.eqb type_name "int" || String.eqb type_name "float")
    || String.eqb type_name "datetime" || String.eqb type_name "string".
Proof. reflexivity. Qed.

Lemma type_mismatch_issues_emitted col type_name (ok : scalar -> bool) i :
  In (col, type_name) expected_types -> has_column df col = true ->
  known_type type_name = true ->
  In i (type_mismatch_issues df col type_name
          (map (fun iv => (fst iv, ok (snd iv))) (dropna (getitem df col)))) ->
  emitted i.
Proof.
  intros Hitem Hhas Hknown. unfold type_mismatch_issues.
  rewrite in_map_iff. intros [idx [<- Hidx]].
  apply in_index_where, in_mapped_series in Hidx.
  destruct Hidx as [v [Hv _]]. apply in_dropna in Hv.
  destruct Hv as [Hv Hna]. apply in_getitem in Hv.
  destruct Hv as [r [Hr ->]].
  now apply E_type_mismatch with (r := r).
Qed.

Lemma type_issues_emitted i :
  In i (flat_map (type_issues_of text_to_number datetime_unread df)
          expected_types) ->
  emitted i.
Proof.
  rewrite in_flat_map. intros [[col type_name] [Hitem Hi]].
  unfold type_issues_of in Hi. cbn [fst snd] in Hi.
  destruct (has_column df col) eqn:Hhas; [|contradiction].
  cbn [negb] in Hi.
  pose proof (known_type_cases type_name) as Hknown.
  destruct (String.eqb type_name "int" || String.eqb type_name "float").
  { unfold to_numeric, isna_numeric in Hi. rewrite map_map in Hi.
    cbn [fst snd] in Hi.
    now apply type_mismatch_issues_emitted
      with (ok := fun v => match to_numeric_value text_to_number v with
                           | Some _ => false
                           | None => true
                           end) in Hi. }
  destruct (String.eqb type_name "datetime").
  { unfold to_datetime_isna in Hi.
    now apply type_mismatch_issues_emitted
      with (ok := datetime_unread (map snd (dropna (getitem df col)))) in Hi. }
  destruct (String.eqb type_name "string").
  { now apply type_mismatch_issues_emitted with (ok := is_container) in Hi. }
  destruct Hi as [<- | []]. now apply E_unknown_type.
Qed.

Lemma in_to_numeric_getitem col idx (o : option Q) :
  In (idx, o) (to_numeric text_to_number (getitem df col))
  <-> exists r, nth_error (rows df) idx = Some r
                /\ o = to_numeric_value text_to_number (cell r col).
Proof.
  unfold to_numeric. rewrite in_mapped_series. split.
  - intros [v [Hv ->]]. apply in_getitem in Hv.
    destruct Hv as [r [Hr ->]]. eauto.
  - intros [r [Hr ->]]. exists (cell r col). split; [|reflexivity].
    apply in_getitem. eauto.
Qed.

Lemma in_below_min_rows col min_val idx :
  In idx (index_where
            (lt_scalar (to_numeric text_to_number (getitem df col)) min_val))
  <-> exists r x, nth_error (rows df) idx = Some r
                  /\ to_numeric_value text_to_number (cell r col) = Some x
                  /\ Qltb x min_val = true.
Proof.
  rewrite in_index_where. unfold lt_scalar.
  rewrite (in_mapped_series
             (fun o => match o with
                       | Some x => Qltb x min_val
                       | None => false
                       end)).
  split.
  - intros [o [Ho Hlt]]. apply in_to_numeric_getitem in Ho.
    destruct Ho as [r [Hr ->]].
    destruct (to_numeric_value text_to_number (cell r col)) as [x|] eqn:Hx;
      [|discriminate].
    exists r, x. auto.
  - intros [r [x [Hr [Hx Hlt]]]]. exists (Some x). split; [|now symmetry].
    apply in_to_numeric_getitem. exists r. auto.
Qed.

Lemma in_above_max_rows col max_val idx :
  In idx (index_where
            (gt_scalar (to_numeric text_to_number (getitem df col)) max_val))
  <-> exists r x, nth_error (rows df) idx = Some r
                  /\ to_numeric_value text_to_number (cell r col) = Some x
                  /\ Qltb max_val x = true.
Proof.
  rewrite in_index_where. unfold gt_scalar.
  rewrite (in_mapped_series
             (fun o => match o with
                       | Some x => Qltb max_val x
                       | None => false
                       end)).
  split.
  - intros [o [Ho Hlt]]. apply in_to_numeric_getitem in Ho.
    destruct Ho as [r [Hr ->]].
    destruct (to_numeric_value text_to_number (cell r col)) as [x|] eqn:Hx;
      [|discriminate].
    exists r, x. auto.
  - intros [r [x [Hr [Hx Hlt]]]]. exists (Some x). split; [|now symmetry].
    apply in_to_numeric_getitem. exists r. auto.
Qed.

Lemma range_issues_emitted i :
  In i (flat_map (range_issues_of text_to_number df) ranges) -> emitted i.
Proof.
  rewrite in_flat_map. intros [[col [mn mx]] [Hitem Hi]].
  unfold range_issues_of in Hi. cbn [fst snd] in Hi.
  destruct (has_column df col) eqn:Hhas; [|contradiction].
  cbn [negb] in Hi. apply in_app_iff in Hi. destruct Hi as [Hi | Hi].
  - destruct mn as [min_val|]; [|contradiction].
    apply in_map_iff in Hi. destruct Hi as [idx [<- Hidx]].
    apply in_below_min_rows in Hidx. destruct Hidx as [r [x [Hr [Hx Hlt]]]].
    now apply E_below_min with (max_val := mx) (r := r) (x := x).
  - destruct mx as [max_val|]; [|contradiction].
    apply in_map_iff in Hi. destruct Hi as [idx [<- Hidx]].
    apply in_above_max_rows in Hidx. destruct Hidx as [r [x [Hr [Hx Hlt]]]].
    now apply E_above_max with (min_val := mn) (r := r) (x := x).
Qed.

Lemma allowed_issues_emitted i :
  In i (flat_map (allowed_issues_of df) allowed_values) -> emitted i.
Proof.
  rewrite in_flat_map. intros [[col allowed] [Hitem Hi]].
  unfold allowed_issues_of in Hi. cbn [fst snd] in Hi.
  destruct (has_column df col) eqn:Hhas; [|contradiction].
  cbn [negb] in Hi. rewrite not_allowed_mask in Hi.
  apply in_map_iff in Hi. destruct Hi as [idx [<- Hidx]].
  apply in_index_where in Hidx.
  apply (in_mapped_series
           (fun v => negb (existsb (value_eqb v) allowed)
                     && negb (isna_value v))) in Hidx.
  destruct Hidx as [v [Hv Hbad]]. apply in_getitem in Hv.
  destruct Hv as [r [Hr ->]]. symmetry in Hbad.
  apply andb_true_iff in Hbad. destruct Hbad as [Hout Hna].
  apply negb_true_iff in Hout, Hna.
  now apply E_not_allowed with (r := r).
Qed.

Lemma email_issues_emitted i :
  In i (email_issues df email_cols) -> emitted i.
Proof.
  unfold email_issues.
  destruct email_cols as [[|c cs]|] eqn:Hec; try contradiction.
  rewrite in_flat_map. intros [col [Hcol Hi]].
  unfold email_issues_of in Hi.
  destruct (has_column df col) eqn:Hhas; [|contradiction].
  cbn [negb] in Hi. apply in_map_iff in Hi. destruct Hi as [idx [<- Hidx]].
  unfold invert, astype_str_contains_at in Hidx. rewrite map_map in Hidx.
  cbn [fst snd] in Hidx.
  apply in_index_where in Hidx.
  apply (in_mapped_series (fun v => negb (has_at_sign v))) in Hidx.
  destruct Hidx as [v [Hv Hbad]]. apply in_dropna in Hv.
  destruct Hv as [Hv Hna]. apply in_getitem in Hv.
  destruct Hv as [r [Hr ->]]. symmetry in Hbad.
  apply negb_true_iff in Hbad.
  now apply E_invalid_email with (cs := c :: cs) (r := r).
Qed.

(** Every issue [validate_dataframe] returns was emitted by one of its
    calls of [add_issue]. *)
Lemma issues_emitted i :
  In i (fst (validate_dataframe text_to_number datetime_unread df
               required_cols expected_types ranges allowed_values
               unique_key_cols email_cols)) ->
  emitted i.
Proof.
  rewrite validate_issues. unfold all_issues. rewrite !in_app_iff.
  intros [H | [H | [H | [H | [H | [H | H]]]]]].
  - now apply required_issues_emitted.
  - now apply missing_value_issues_emitted.
  - now apply duplicate_issues_emitted.
  - now apply type_issues_emitted.
  - now apply range_issues_emitted.
  - now apply allowed_issues_emitted.
  - now apply email_issues_emitted.
Qed.

(** *** The block of each emitted issue *)

Lemma block_of_required i :
  In i (required_issues df required_cols) -> block_of (issue i) = 1.
Proof. unfold required_issues. rewrite in_map_iff. now intros [c [<- _]]. Qed.

Lemma block_of_missing_value i :
  In i (missing_value_issues df required_cols) -> block_of (issue i) = 2.
Proof.
  unfold missing_value_issues. rewrite in_flat_map. intros [c [_ Hi]].
  apply in_map_iff in Hi. now destruct Hi as [idx [<- _]].
Qed.

Lemma block_of_duplicate i :
  In i (duplicate_issues df unique_key_cols) -> block_of (issue i) = 3.
Proof.
  unfold duplicate_issues, missing_key_issues, duplicate_key_issues.
  destruct unique_key_cols as [[|k ks]|].
  - rewrite in_map_iff. now intros [idx [<- _]].
  - rewrite in_app_iff. intros [Hi | Hi].
    + apply in_map_iff in Hi. now destruct Hi as [c [<- _]].
    + destruct (filter (has_column df) (k :: ks)); [contradiction|].
      apply in_map_iff in Hi. now destruct Hi as [idx [<- _]].
  - rewrite in_map_iff. now intros [idx [<- _]].
Qed.

Lemma block_of_type i :
  In i (flat_map (type_issues_of text_to_number datetime_unread df)
          expected_types) ->
  block_of (issue i) = 4.
Proof.
  rewrite in_flat_map. intros [[col type_name] [_ Hi]].
  unfold type_issues_of, type_mismatch_issues in Hi. cbn [fst snd] in Hi.
  repeat match type of Hi with
         | context [if ?b then _ else _] => destruct b
         end;
    try contradiction;
    try (apply in_map_iff in Hi; now destruct Hi as [idx [<- _]]).
  now destruct Hi as [<- | []].
Qed.

Lemma block_of_range i :
  In i (flat_map (range_issues_of text_to_number df) ranges) ->
  block_of (issue i) = 5.
Proof.
  rewrite in_flat_map. intros [[col [mn mx]] [_ Hi]].
  unfold range_issues_of in Hi. cbn [fst snd] in Hi.
  destruct (negb (has_column df col)); [contradiction|].
  apply in_app_iff in Hi.
  destruct Hi as [Hi | Hi]; [destruct mn | destruct mx];
    try contradiction;
    apply in_map_iff in Hi; now destruct Hi as [idx [<- _]].
Qed.

Lemma block_of_allowed i :
  In i (flat_map (allowed_issues_of df) allowed_values) ->
  block_of (issue i) = 6.
Proof.
  rewrite in_flat_map. intros [[col allowed] [_ Hi]].
  unfold allowed_issues_of in Hi. cbn [fst snd] in Hi.
  destruct (negb (has_column df col)); [contradiction|].
  apply in_map_iff in Hi. now destruct Hi as [idx [<- _]].
Qed.

Lemma block_of_email i :
  In i (email_issues df email_cols) -> block_of (issue i) = 7.
Proof.
  unfold email_issues. destruct email_cols as [[|c cs]|]; try contradiction.
  rewrite in_flat_map. intros [col [_ Hi]].
  unfold email_issues_of in Hi.
  destruct (negb (has_column df col)); [contradiction|].
  apply in_map_iff in Hi. now destruct Hi as [idx [<- _]].
Qed.

Lemma filter_none (A : Type) (p : A -> bool) (l : list A) :
  (forall x, In x l -> p x = false) -> filter p l = [].
Proof.
  induction l as [|a l IH]; intros H; simpl; [reflexivity|].
  rewrite (H a (or_introl eq_refl)). apply IH. intros x Hx. apply H. now right.
Qed.

Lemma filter_all (A : Type) (p : A -> bool) (l : list A) :
  (forall x, In x l -> p x = true) -> filter p l = l.
Proof.
  induction l as [|a l IH]; intros H; simpl; [reflexivity|].
  rewrite (H a (or_introl eq_refl)). f_equal. apply IH.
  intros x Hx. apply H. now right.
Qed.

Lemma filter_other_block (p : Issue -> bool) (k k' : nat) (l : list Issue) :
  (forall i, p i = true -> block_of (issue i) = k) ->
  (forall i, In i l -> block_of (issue i) = k') ->
  k <> k' -> filter p l = [].
Proof.
  intros Hp Hl Hne. apply filter_none. intros i Hi.
  destruct (p i) eqn:Hpi; [|reflexivity].
  apply Hp in Hpi. apply Hl in Hi. congruence.
Qed.

(** A test that only issues of the duplicate block pass selects, in the
    whole result, what it selects in that block. *)
Lemma filter_duplicate_block (p : Issue -> bool) :
  (forall i, p i = true -> block_of (issue i) = 3) ->
  filter p (all_issues text_to_number datetime_unread df required_cols
              expected_types ranges allowed_values unique_key_cols email_cols)
  = filter p (duplicate_issues df unique_key_cols).
Proof.
  intros Hp. unfold all_issues. rewrite !filter_app.
  rewrite (@filter_other_block p 3 1 _ Hp block_of_required) by discriminate.
  rewrite (@filter_other_block p 3 2 _ Hp block_of_missing_value) by discriminate.
  rewrite (@filter_other_block p 3 4 _ Hp block_of_type) by discriminate.
  rewrite (@filter_other_block p 3 5 _ Hp block_of_range) by discriminate.
  rewrite (@filter_other_block p 3 6 _ Hp block_of_allowed) by discriminate.
  rewrite (@filter_other_block p 3 7 _ Hp block_of_email) by discriminate.
  cbn [app]. now rewrite app_nil_r.
Qed.


End Emitted.

(** *** Duplicated rows *)

(** A row is marked by [duplicated] exactly when a row at another position
    has the same key. *)
Lemma in_duplicated df subset idx :
  In (idx, true) (duplicated df subset)
  <-> exists r j rj,
        nth_error (rows df) idx = Some r /\ nth_error (rows df) j = Some rj
        /\ j <> idx
        /\ key_eqb (key_of subset r) (key_of subset rj) = true.
Proof.
  unfold duplicated. rewrite in_map_iff. split.
  - intros [[i k] [Heq Hin]]. cbn [fst snd] in Heq. inversion Heq; subst i.
    apply in_indexed_map in Hin. destruct Hin as [r [Hr ->]].
    match goal with H : existsb _ _ = true |- _ => rename H into Hex end.
    apply existsb_exists in Hex. destruct Hex as [[j kj] [Hj Htest]].
    cbn [fst snd] in Htest. apply andb_true_iff in Htest.
    destruct Htest as [Hne Hkey]. apply negb_true_iff, Nat.eqb_neq in Hne.
    apply in_indexed_map in Hj. destruct Hj as [rj [Hrj ->]].
    exists r, j, rj. repeat split; congruence.
  - intros [r [j [rj [Hr [Hrj [Hne Hkey]]]]]].
    exists (idx, key_of subset r). split.
    + cbn [fst snd]. f_equal. apply existsb_exists.
      exists (j, key_of subset rj). split.
      * apply in_indexed_map. eauto.
      * cbn [fst snd]. apply andb_true_iff. split; [|exact Hkey].
        apply negb_true_iff, Nat.eqb_neq. congruence.
    + apply in_indexed_map. eauto.
Qed.

Lemma nothing_in_empty (A : Type) (l : list A) :
  (forall x, ~ In x l) -> l = [].
Proof.
  destruct l as [|a l]; [reflexivity|]. intros H. destruct (H a). now left.
Qed.

(** *** The properties of [validate_dataframe] *)

(** C1. For every dataset and every rule configuration, [total_issues] of
    the summary is the number of issues of the list returned with it. *)
Theorem total_issues_counts_the_issues df required_cols expected_types ranges
  allowed_values unique_key_cols email_cols :
  total_issues
    (snd (validate_dataframe text_to_number datetime_unread df required_cols
            expected_types ranges allowed_values unique_key_cols email_cols))
  = List.length
      (fst (validate_dataframe text_to_number datetime_unread df required_cols
              expected_types ranges allowed_values unique_key_cols email_cols)).
Proof. reflexivity. Qed.

(** C2, as amended. With an empty rule configuration (no required column,
    no expected type, no range, no allowed values, no unique key columns,
    no email columns) the whole-row duplicate check still runs: on a
    non-empty dataset in which no two rows have the same values in all
    columns, the issue list is empty and [total_issues] is 0. *)
Theorem empty_rules_on_distinct_rows df unique_key_cols email_cols :
  empty df = false ->
  truthy unique_key_cols = false ->
  truthy email_cols = false ->
  (forall i j ri rj,
      nth_error (rows df) i = Some ri -> nth_error (rows df) j = Some rj ->
      i <> j ->
      key_eqb (key_of (columns df) ri) (key_of (columns df) rj) = false) ->
  fst (validate_dataframe text_to_number datetime_unread df [] [] [] []
         unique_key_cols email_cols) = []
  /\ total_issues
       (snd (validate_dataframe text_to_number datetime_unread df [] [] [] []
               unique_key_cols email_cols)) = 0.
Proof.
  intros _ Hkeys Hmails Hdistinct.
  assert (Hnone : fst (validate_dataframe text_to_number datetime_unread df
                         [] [] [] [] unique_key_cols email_cols) = []).
  { apply nothing_in_empty. intros i Hi. apply issues_emitted in Hi.
    destruct Hi as
      [ c Hc | c idx r Hc | ks c Huk Hc | ks idx Huk Hk | idx _ Hdup
      | col t idx r Hc | col t Hc
      | col mn mx idx r x Hc | col mn mx idx r x Hc
      | col allowed idx r Hc | cs col idx r Hec Hc ];
      try contradiction.
    - subst unique_key_cols.
      destruct ks as [|k ks]; [contradiction | discriminate].
    - subst unique_key_cols.
      destruct ks as [|k ks]; [now apply Hk | discriminate].
    - apply in_duplicated in Hdup.
      destruct Hdup as [r [j [rj [Hr [Hrj [Hne Hkey]]]]]].
      rewrite (Hdistinct idx j r rj Hr Hrj) in Hkey; [discriminate|congruence].
    - subst email_cols. destruct cs; [contradiction | discriminate]. }
  split; [exact Hnone|].
  change (List.length
            (fst (validate_dataframe text_to_number datetime_unread df
                    [] [] [] [] unique_key_cols email_cols)) = 0).
  now rewrite Hnone.
Qed.

(** An integer of at most 53 bits is its own float. *)
Lemma float64_of_int_exact (n : Z) :
  (Z.abs n < 2 ^ 53)%Z -> float64_of_int n = n.
Proof.
  intros Hn. unfold float64_of_int.
  destruct (Z.eq_dec (Z.abs n) 0) as [Hz | Hnz].
  - now rewrite Hz.
  - assert (Hlog : (Z.log2 (Z.abs n) < 53)%Z)
      by (apply Z.log2_lt_pow2; lia).
    destruct (Z.log2 (Z.abs n) + 1 - 53 <=? 0)%Z eqn:He; [reflexivity|].
    apply Z.leb_gt in He. lia.
Qed.

Lemma Qltb_lt (x y : Q) : Qltb x y = true <-> (x < y)%Q.
Proof.
  unfold Qltb. rewrite negb_true_iff. split.
  - intros H. apply Qnot_le_lt. intros Hle.
    apply Qle_bool_iff in Hle. congruence.
  - intros Hlt. destruct (Qle_bool y x) eqn:Hle; [|reflexivity].
    apply Qle_bool_iff in Hle. now apply Qlt_not_le in Hlt.
Qed.

(** C5. The range check never reports a cell whose numeric coercion fails,
    the missing marker included: no below-min and no above-max issue of the
    result carries the row and the column of such a cell. *)
Theorem range_check_skips_uncoerced_cells df required_cols expected_types
  ranges allowed_values unique_key_cols email_cols idx col i :
  at_ df idx col = NaN
  \/ to_numeric_value text_to_number (at_ df idx col) = None ->
  In i (fst (validate_dataframe text_to_number datetime_unread df required_cols
               expected_types ranges allowed_values unique_key_cols
               email_cols)) ->
  row_index i = Some idx -> column i = Some col ->
  forall bound,
    issue i <> Value_below_min bound /\ issue i <> Value_above_max bound.
Proof.
  intros Hfail Hi Hrow Hcol bound.
  assert (Hnone : to_numeric_value text_to_number (at_ df idx col) = None).
  { destruct Hfail as [Hna | Hnone]; [now rewrite Hna | exact Hnone]. }
  apply issues_emitted in Hi.
  destruct Hi as
    [ | | | | | |
    | col' mn mx idx' r x _ _ Hr Hx _ | col' mn mx idx' r x _ _ Hr Hx _
    | | ];
    cbn [issue duplicate_key_issue duplicate_row_issue unknown_type_issue];
    try (split; discriminate).
  - cbn in Hrow, Hcol. inversion Hrow; inversion Hcol; subst.
    rewrite (at_of_row df idx col Hr), Hx in Hnone. discriminate.
  - cbn in Hrow, Hcol. inversion Hrow; inversion Hcol; subst.
    rewrite (at_of_row df idx col Hr), Hx in Hnone. discriminate.
Qed.

(** C6. A range rule with both bounds set and crossed is not guarded: a
    cell whose number, as the float64 the comparisons see, is strictly above
    the maximum and strictly below the minimum gets a below-min issue and an
    above-max issue, for the same row and column, in the same run.  For an
    integer cell of more than 53 bits that number is the nearest float, not
    the integer itself. *)
Theorem crossed_bounds_report_twice df required_cols expected_types ranges
  allowed_values unique_key_cols email_cols col min_val max_val idx r x :
  In (col, (Some min_val, Some max_val)) ranges ->
  has_column df col = true ->
  nth_error (rows df) idx = Some r ->
  to_numeric_value text_to_number (cell r col) = Some x ->
  (max_val < x)%Q -> (x < min_val)%Q ->
  let issues :=
    fst (validate_dataframe text_to_number datetime_unread df required_cols
           expected_types ranges allowed_values unique_key_cols email_cols) in
  In (Build_Issue (Some idx) (Some col) (Value_below_min min_val)
        (PCell (cell r col))) issues
  /\ In (Build_Issue (Some idx) (Some col) (Value_above_max max_val)
           (PCell (cell r col))) issues.
Proof.
  intros Hitem Hhas Hr Hx Habove Hbelow issues. subst issues.
  rewrite validate_issues. unfold all_issues. rewrite !in_app_iff.
  assert (Hrange :
            forall i, In i (range_issues_of text_to_number df
                              (col, (Some min_val, Some max_val))) ->
                      In i (flat_map (range_issues_of text_to_number df) ranges)).
  { intros i Hi. apply in_flat_map. eauto. }
  unfold range_issues_of in Hrange. cbn [fst snd] in Hrange.
  rewrite Hhas in Hrange. cbn [negb] in Hrange.
  rewrite <- (at_of_row df idx col Hr).
  split; do 4 right; left; apply Hrange, in_app_iff; [left | right];
    apply in_map_iff; exists idx; (split; [reflexivity|]).
  - apply in_below_min_rows. exists r, x. repeat split; auto.
    now apply Qltb_lt.
  - apply in_above_max_rows. exists r, x. repeat split; auto.
    now apply Qltb_lt.
Qed.

(** *** Joined key columns *)

Lemma list_ascii_of_append (s t : string) :
  list_ascii_of_string (s ++ t)
  = list_ascii_of_string s ++ list_ascii_of_string t.
Proof. induction s as [|a s IH]; simpl; [reflexivity | now rewrite IH]. Qed.

Lemma joined_keys_have_comma (c1 c2 : string) (cs : list string) :
  has_comma (String.concat "," (c1 :: c2 :: cs)) = true.
Proof.
  unfold has_comma. cbn [String.concat].
  rewrite !list_ascii_of_append, !existsb_app. cbn.
  now rewrite orb_true_r.
Qed.

(** C7, as amended. For a column name absent from the dataset, an issue
    whose column field is that name is either a dataset-level issue, with
    no value, that reports the name as a missing required column or as a
    missing key column (whichever rule lists the name), or a
    duplicate-key issue of a composite key, whose column field is the
    comma-joined list of two or more present key columns; every row-level
    check of a single column skips the absent column. *)
Theorem absent_column_issues df required_cols expected_types ranges
  allowed_values unique_key_cols email_cols c i :
  has_column df c = false ->
  In i (fst (validate_dataframe text_to_number datetime_unread df required_cols
               expected_types ranges allowed_values unique_key_cols
               email_cols)) ->
  column i = Some c ->
  (row_index i = None /\ value i = PNone
   /\ (issue i = Missing_required_column
       \/ issue i = Missing_key_column_for_duplicate_check))
  \/ (issue i = Duplicate_key /\ has_comma c = true
      /\ exists ks,
           unique_key_cols = Some ks
           /\ c = String.concat "," (filter (has_column df) ks)
           /\ 2 <= List.length (filter (has_column df) ks)).
Proof.
  intros Habsent Hi Hcol. apply issues_emitted in Hi.
  destruct Hi as
    [ c' _ _ | c' idx r _ Hhas _ _ | ks c' _ _ _ | ks idx Huk Hkeys _ | idx _ _
    | col t idx r _ Hhas _ _ _ | col t _ Hhas _
    | col mn mx idx r x _ Hhas _ _ _ | col mn mx idx r x _ Hhas _ _ _
    | col allowed idx r _ Hhas _ _ _ | cs col idx r _ _ Hhas _ _ _ ];
    cbn in Hcol; try discriminate;
    try (inversion Hcol; subst; congruence).
  - left. auto.
  - left. auto.
  - right. split; [reflexivity|].
    destruct (filter (has_column df) ks) as [|c1 [|c2 cs]] eqn:Hfilter.
    + now destruct Hkeys.
    + cbn in Hcol. inversion Hcol; subst c1.
      assert (Hin : In c (filter (has_column df) ks))
        by (rewrite Hfilter; now left).
      apply filter_In in Hin. destruct Hin as [_ Hhas]. congruence.
    + inversion Hcol; subst c. split; [apply joined_keys_have_comma|].
      exists ks. rewrite Hfilter. repeat split; auto. cbn. lia.
Qed.

(** C10. When [unique_key_cols] is given and not empty but none of its
    columns is in the dataset, the result has one dataset-level
    missing-key-column issue for each listed column, in their order, and no
    duplicate issue at all: neither a duplicate-key issue nor the whole-row
    duplicate issue of the other mode. *)
Theorem no_present_key_no_duplicate_check df required_cols expected_types
  ranges allowed_values unique_key_cols email_cols ks :
  unique_key_cols = Some ks -> ks <> [] ->
  (forall c, In c ks -> has_column df c = false) ->
  let issues :=
    fst (validate_dataframe text_to_number datetime_unread df required_cols
           expected_types ranges allowed_values unique_key_cols email_cols) in
  filter is_missing_key_issue issues
  = map (fun c => Build_Issue None (Some c)
                    Missing_key_column_for_duplicate_check PNone) ks
  /\ forall i, In i issues ->
               issue i <> Duplicate_key /\ issue i <> Duplicate_row.
Proof.
  intros Huk Hks Habsent issues. subst issues.
  assert (Hnone : filter (has_column df) ks = []).
  { apply filter_none. exact Habsent. }
  split.
  - rewrite validate_issues, filter_duplicate_block.
    + subst unique_key_cols. destruct ks as [|k ks]; [congruence|].
      unfold duplicate_issues, duplicate_key_issues, missing_key_issues.
      rewrite Hnone, app_nil_r.
      rewrite (@filter_all _ (fun c => negb (has_column df c)) (k :: ks)).
      * apply filter_all. intros i Hi. apply in_map_iff in Hi.
        now destruct Hi as [c [<- _]].
      * intros c Hc. now rewrite (Habsent c Hc).
    + intros i. unfold is_missing_key_issue.
      destruct (issue i); now try discriminate.
  - intros i Hi. apply issues_emitted in Hi.
    destruct Hi as
      [ | | | ks' idx Huk' Hkeys _ | idx Hfalsy _ | | | | | | ];
      cbn [issue duplicate_key_issue duplicate_row_issue unknown_type_issue
             below_min_issue above_max_issue];
      try (split; discriminate).
    + exfalso. apply Hkeys. congruence.
    + exfalso. subst unique_key_cols.
      destruct ks; [congruence | discriminate].
Qed.

(** *** Groups of equal rows *)

Lemma value_eqb_refl (a : scalar) : value_eqb a a = true.
Proof.
  destruct a; simpl;
    auto using Qeq_bool_refl, String.eqb_refl.
Qed.

Lemma value_eqb_sym (a b : scalar) : value_eqb a b = value_eqb b a.
Proof.
  destruct a, b; simpl;
    auto using Qeq_bool_comm, String.eqb_sym.
Qed.

Lemma key_eqb_refl (k : list scalar) : key_eqb k k = true.
Proof.
  induction k as [|a k IH]; simpl; [reflexivity|].
  now rewrite value_eqb_refl.
Qed.

Lemma key_eqb_of_cells (subset : list string) (r r' : Row) :
  (forall c, In c subset -> value_eqb (cell r c) (cell r' c) = true) ->
  key_eqb (key_of subset r) (key_of subset r') = true.
Proof.
  unfold key_of. induction subset as [|c cs IH]; intros H; simpl;
    [reflexivity|].
  rewrite (H c (or_introl eq_refl)). apply IH. intros c' Hc'. apply H.
  now right.
Qed.

Lemma filter_nonempty_has (A : Type) (p : A -> bool) (l : list A) :
  1 <= List.length (filter p l) <-> exists x, In x l /\ p x = true.
Proof.
  split.
  - destruct (filter p l) as [|x l'] eqn:Hf; simpl; [lia|]. intros _.
    exists x. apply filter_In. rewrite Hf. now left.
  - intros [x Hx]. apply filter_In in Hx.
    destruct (filter p l); [contradiction | simpl; lia].
Qed.

(** The group of a row has two rows or more exactly when a row at another
    position has the same key. *)
Lemma group_of_two df subset idx r :
  nth_error (rows df) idx = Some r ->
  2 <= group_size df subset r
  <-> exists j rj,
        nth_error (rows df) j = Some rj /\ j <> idx
        /\ key_eqb (key_of subset r) (key_of subset rj) = true.
Proof.
  intros Hr. unfold group_size.
  destruct (nth_error_split _ _ Hr) as [l1 [l2 [Hrows Hlen]]].
  rewrite Hrows in *. rewrite filter_app, length_app. cbn [filter].
  rewrite key_eqb_refl. cbn [List.length].
  set (p := fun r' => key_eqb (key_of subset r) (key_of subset r')).
  split.
  - intros Hsize.
    assert (H : 1 <= List.length (filter p l1)
                \/ 1 <= List.length (filter p l2)) by lia.
    destruct H as [H | H]; apply filter_nonempty_has in H;
      destruct H as [x [Hx Hpx]];
      apply In_nth_error in Hx; destruct Hx as [n Hn].
    + exists n, x. assert (n < List.length l1)
        by (apply nth_error_Some; congruence).
      rewrite nth_error_app1 by assumption. repeat split; auto. lia.
    + exists (List.length l1 + S n), x.
      rewrite nth_error_app2 by lia.
      replace (List.length l1 + S n - List.length l1) with (S n) by lia.
      repeat split; auto. lia.
  - intros [j [rj [Hj [Hne Hkey]]]].
    destruct (Nat.lt_ge_cases j (List.length l1)) as [Hlt | Hge].
    + rewrite nth_error_app1 in Hj by assumption.
      apply nth_error_In in Hj.
      assert (1 <= List.length (filter p l1))
        by (apply filter_nonempty_has; eauto).
      lia.
    + rewrite nth_error_app2 in Hj by assumption.
      destruct (j - List.length l1) as [|n] eqn:Hn; [lia|].
      cbn in Hj. apply nth_error_In in Hj.
      assert (1 <= List.length (filter p l2))
        by (apply filter_nonempty_has; eauto).
      lia.
Qed.

Lemma map_fst_indexed (A : Type) (l : list A) (s : nat) :
  map fst (combine (seq s (List.length l)) l) = seq s (List.length l).
Proof.
  revert s. induction l as [|a l IH]; intros s; simpl; [reflexivity|].
  now rewrite IH.
Qed.

(** Selecting items of a Series keeps its labels distinct. *)
Lemma selected_labels_NoDup (A : Type) (keep : nat * A -> bool) (s : Series A) :
  NoDup (map fst s) -> NoDup (map fst (filter keep s)).
Proof.
  intros Hlabels. induction s as [|item s IH]; simpl; [constructor|].
  simpl in Hlabels. apply NoDup_cons_iff in Hlabels.
  destruct Hlabels as [Hfresh Hrest].
  destruct (keep item); simpl; auto.
  apply NoDup_cons; auto.
  intros Hin. apply Hfresh.
  apply in_map_iff in Hin. destruct Hin as [other [Hlabel Hother]].
  apply filter_In in Hother. apply in_map_iff. exists other. tauto.
Qed.

(** [df.index[dup_mask]] lists no row twice. *)
Lemma duplicated_rows_NoDup df subset :
  NoDup (index_where (duplicated df subset)).
Proof.
  unfold index_where. apply selected_labels_NoDup.
  unfold duplicated. rewrite map_map. cbn [fst].
  unfold index, len.
  rewrite <- (length_map (key_of subset) (rows df)), map_fst_indexed.
  apply seq_NoDup.
Qed.

Lemma count_in_NoDup (l : list nat) (x : nat) :
  NoDup l ->
  List.length (filter (fun k => k =? x) l) = if existsb (Nat.eqb x) l then 1 else 0.
Proof.
  induction 1 as [|a l Hnotin Hnodup IH]; simpl; [reflexivity|].
  rewrite (Nat.eqb_sym x a).
  destruct (a =? x) eqn:Hax; simpl.
  - apply Nat.eqb_eq in Hax. subst a. rewrite IH.
    destruct (existsb (Nat.eqb x) l) eqn:Hex; [|reflexivity].
    apply existsb_exists in Hex. destruct Hex as [y [Hy Hxy]].
    apply Nat.eqb_eq in Hxy. subst y. contradiction.
  - exact IH.
Qed.

Lemma existsb_eqb_In (l : list nat) (x : nat) :
  existsb (Nat.eqb x) l = true <-> In x l.
Proof.
  rewrite existsb_exists. split.
  - intros [y [Hy Hxy]]. apply Nat.eqb_eq in Hxy. now subst.
  - intros Hx. exists x. split; [exact Hx | apply Nat.eqb_refl].
Qed.

(** Among the issues made from the marked rows, how many belong to a row. *)
Lemma duplicate_issues_of_row (mk : nat -> Issue) df subset idx r :
  (forall k, is_duplicate_issue_at idx (mk k) = (k =? idx)) ->
  nth_error (rows df) idx = Some r ->
  List.length (filter (is_duplicate_issue_at idx)
                 (map mk (index_where (duplicated df subset))))
  = if 2 <=? group_size df subset r then 1 else 0.
Proof.
  intros Hmk Hr.
  assert (Hfilter : forall l,
             List.length (filter (is_duplicate_issue_at idx) (map mk l))
             = List.length (filter (fun k => k =? idx) l)).
  { induction l as [|k l IH]; simpl; [reflexivity|].
    rewrite Hmk. destruct (k =? idx); simpl; now rewrite IH. }
  rewrite Hfilter, (count_in_NoDup idx (duplicated_rows_NoDup df subset)).
  destruct (existsb (Nat.eqb idx) (index_where (duplicated df subset))) eqn:Hex;
    destruct (2 <=? group_size df subset r) eqn:Hsize; try reflexivity;
    exfalso.
  - apply existsb_eqb_In, in_index_where, in_duplicated in Hex.
    destruct Hex as [r' [j [rj [Hr' [Hrj [Hne Hkey]]]]]].
    assert (r' = r) by congruence. subst r'.
    apply Nat.leb_gt in Hsize.
    assert (2 <= group_size df subset r)
      by (apply (group_of_two df subset idx Hr); eauto).
    lia.
  - apply Nat.leb_le in Hsize.
    apply (group_of_two df subset idx Hr) in Hsize.
    destruct Hsize as [j [rj [Hrj [Hne Hkey]]]].
    assert (Hin : In idx (index_where (duplicated df subset))).
    { apply in_index_where, in_duplicated. exists r, j, rj. auto. }
    apply existsb_eqb_In in Hin. congruence.
Qed.

(** C3, as amended. Provided the duplicate check has a column to group by
    (in keyed mode at least one listed key column is in the dataset, in
    whole-row mode the dataset has a column), every row whose group of
    equal rows, over the present key columns or over all columns, has two
    rows or more gets exactly one duplicate issue, and a row alone in its
    group gets none: all the rows of a group are reported, the first one
    included. *)
Theorem duplicate_rows_reported_once df required_cols expected_types ranges
  allowed_values unique_key_cols email_cols idx r :
  grouping_columns df unique_key_cols <> [] ->
  nth_error (rows df) idx = Some r ->
  List.length
    (filter (is_duplicate_issue_at idx)
       (fst (validate_dataframe text_to_number datetime_unread df required_cols
               expected_types ranges allowed_values unique_key_cols
               email_cols)))
  = if 2 <=? group_size df (grouping_columns df unique_key_cols) r
    then 1 else 0.
Proof.
  intros Hcols Hr. rewrite validate_issues, filter_duplicate_block.
  - unfold duplicate_issues, grouping_columns in *.
    destruct unique_key_cols as [[|k ks]|].
    + now apply duplicate_issues_of_row.
    + rewrite filter_app, length_app.
      rewrite (@filter_none _ (is_duplicate_issue_at idx)
                 (missing_key_issues df (k :: ks))).
      * unfold duplicate_key_issues.
        destruct (filter (has_column df) (k :: ks)) as [|c cs] eqn:Hkeys;
          [congruence|].
        now apply duplicate_issues_of_row.
      * intros i Hi. unfold missing_key_issues in Hi.
        apply in_map_iff in Hi. now destruct Hi as [c [<- _]].
    + now apply duplicate_issues_of_row.
  - intros i. unfold is_duplicate_issue_at.
    destruct (row_index i), (issue i); now try discriminate.
Qed.

Lemma duplicate_key_issue_in_result df required_cols expected_types ranges
  allowed_values unique_key_cols email_cols ks idx :
  unique_key_cols = Some ks ->
  filter (has_column df) ks <> [] ->
  In (idx, true) (duplicated df (filter (has_column df) ks)) ->
  In (duplicate_key_issue df (filter (has_column df) ks) idx)
     (fst (validate_dataframe text_to_number datetime_unread df required_cols
             expected_types ranges allowed_values unique_key_cols email_cols)).
Proof.
  intros Huk Hkeys Hdup. rewrite validate_issues. unfold all_issues.
  rewrite !in_app_iff. do 2 right. left.
  subst unique_key_cols. unfold duplicate_issues.
  destruct ks as [|k ks]; [now destruct Hkeys|].
  apply in_app_iff. right. unfold duplicate_key_issues.
  destruct (filter (has_column df) (k :: ks)) as [|c cs] eqn:Hfilter;
    [now destruct Hkeys|].
  apply in_map_iff. exists idx. split; [reflexivity|].
  now apply in_index_where.
Qed.

(** C4. In keyed mode, two rows that agree on every key column present in
    the dataset are in the same duplicate group, a cell missing in both
    rows counting as agreement (the missing marker is equal to itself): both
    rows get a duplicate-key issue. *)
Theorem rows_equal_on_keys_both_reported df required_cols expected_types
  ranges allowed_values unique_key_cols email_cols ks c0 i j ri rj :
  unique_key_cols = Some ks ->
  In c0 ks -> has_column df c0 = true ->
  nth_error (rows df) i = Some ri -> nth_error (rows df) j = Some rj ->
  i <> j ->
  (forall c, In c ks -> has_column df c = true ->
             (cell ri c = NaN /\ cell rj c = NaN)
             \/ value_eqb (cell ri c) (cell rj c) = true) ->
  let key_cols := filter (has_column df) ks in
  let issues :=
    fst (validate_dataframe text_to_number datetime_unread df required_cols
           expected_types ranges allowed_values unique_key_cols email_cols) in
  In (duplicate_key_issue df key_cols i) issues
  /\ In (duplicate_key_issue df key_cols j) issues.
Proof.
  intros Huk Hc0 Hhas0 Hri Hrj Hne Hagree key_cols issues.
  subst key_cols issues.
  assert (Hkeys : filter (has_column df) ks <> []).
  { intros Hnil. assert (Hin : In c0 (filter (has_column df) ks))
      by (apply filter_In; auto).
    now rewrite Hnil in Hin. }
  assert (Hcells : forall c, In c (filter (has_column df) ks) ->
                             value_eqb (cell ri c) (cell rj c) = true).
  { intros c Hc. apply filter_In in Hc. destruct Hc as [Hc Hhas].
    destruct (Hagree c Hc Hhas) as [[-> ->] | Heq]; [reflexivity | exact Heq]. }
  split; apply duplicate_key_issue_in_result; auto; apply in_duplicated.
  - exists ri, j, rj. repeat split; auto.
    now apply key_eqb_of_cells.
  - exists rj, i, ri. repeat split; auto.
    apply key_eqb_of_cells. intros c Hc.
    rewrite value_eqb_sym. now apply Hcells.
Qed.

(** *** Unknown expected types *)

Lemma type_issues_column df item i :
  In i (type_issues_of text_to_number datetime_unread df item) ->
  column i = Some (fst item).
Proof.
  unfold type_issues_of, type_mismatch_issues. intros Hi.
  repeat match type of Hi with
         | context [if ?b then _ else _] => destruct b
         end;
    try contradiction;
    try (apply in_map_iff in Hi; now destruct Hi as [idx [<- _]]).
  now destruct Hi as [<- | []].
Qed.


Lemma dict_value_unique (A : Type) (d : list (string * A)) k a b :
  NoDup (map fst d) -> In (k, a) d -> In (k, b) d -> a = b.
Proof.
  induction d as [|[k' v] d IH]; simpl; intros Hnodup Ha Hb; [contradiction|].
  inversion Hnodup as [|x xs Hnotin Hrest]; subst.
  assert (Hkey : forall c, In (k', c) d -> False).
  { intros c Hc. apply Hnotin. apply in_map_iff. now exists (k', c). }
  destruct Ha as [Ha | Ha], Hb as [Hb | Hb].
  - congruence.
  - inversion Ha; subst. destruct (Hkey _ Hb).
  - inversion Hb; subst. destruct (Hkey _ Ha).
  - now apply IH.
Qed.







(** *** What each check reports *)

Lemma isna_value_NaN (v : scalar) : isna_value v = true <-> v = NaN.
Proof. destruct v; simpl; split; congruence. Qed.

(** The issues of the result after those of the first block belong to the
    later blocks. *)
Lemma later_blocks df required_cols expected_types ranges allowed_values
  unique_key_cols email_cols i :
  In i (missing_value_issues df required_cols
        ++ duplicate_issues df unique_key_cols
        ++ flat_map (type_issues_of text_to_number datetime_unread df)
             expected_types
        ++ flat_map (range_issues_of text_to_number df) ranges
        ++ flat_map (allowed_issues_of df) allowed_values
        ++ email_issues df email_cols) ->
  2 <= block_of (issue i).
Proof.
  rewrite !in_app_iff. intros [H | [H | [H | [H | [H | H]]]]].
  - rewrite (block_of_missing_value _ _ _ H). lia.
  - rewrite (block_of_duplicate _ _ _ H). lia.
  - rewrite (block_of_type _ _ _ H). lia.
  - rewrite (block_of_range _ _ _ H). lia.
  - rewrite (block_of_allowed _ _ _ H). lia.
  - rewrite (block_of_email _ _ _ H). lia.
Qed.

(** X1. The result starts with one dataset-level missing-required-column
    issue for each required column that is not in the dataset, in the order
    of [required_cols] and as often as the column is listed; no later issue
    is of that kind. *)
Theorem missing_required_columns_come_first df required_cols expected_types
  ranges allowed_values unique_key_cols email_cols :
  exists rest,
    fst (validate_dataframe text_to_number datetime_unread df required_cols
           expected_types ranges allowed_values unique_key_cols email_cols)
    = map (fun c => Build_Issue None (Some c) Missing_required_column PNone)
          (filter (fun c => negb (has_column df c)) required_cols)
      ++ rest
    /\ forall i, In i rest -> issue i <> Missing_required_column.
Proof.
  rewrite validate_issues. unfold all_issues, required_issues.
  eexists. split; [reflexivity|].
  intros i Hi Hkind. apply later_blocks in Hi. rewrite Hkind in Hi.
  cbn in Hi. lia.
Qed.

(** X2. A missing-value issue is reported for a row and a column exactly
    when the column is listed in [required_cols], is in the dataset, and
    the cell of that row is missing. *)
Theorem missing_value_reported_iff df required_cols expected_types ranges
  allowed_values unique_key_cols email_cols idx c :
  In (Build_Issue (Some idx) (Some c) Missing_value PNone)
     (fst (validate_dataframe text_to_number datetime_unread df required_cols
             expected_types ranges allowed_values unique_key_cols email_cols))
  <-> In c required_cols /\ has_column df c = true
      /\ exists r, nth_error (rows df) idx = Some r /\ cell r c = NaN.
Proof.
  split.
  - intros Hin. apply issues_emitted in Hin.
    remember (Build_Issue (Some idx) (Some c) Missing_value PNone) as i eqn:Hi.
    destruct Hin as [ | c' idx' r Hc Hhas Hr Hna | | | | | | | | | ];
      unfold duplicate_key_issue, duplicate_row_issue, unknown_type_issue,
        below_min_issue, above_max_issue in Hi;
      try discriminate Hi.
    inversion Hi; subst. apply isna_value_NaN in Hna. eauto.
  - intros [Hc [Hhas [r [Hr Hna]]]].
    rewrite validate_issues. unfold all_issues. rewrite !in_app_iff.
    right. left. unfold missing_value_issues. apply in_flat_map.
    exists c. split; [apply filter_In; auto|].
    apply in_map_iff. exists idx. split; [reflexivity|].
    apply in_index_where. unfold isna.
    apply (in_mapped_series isna_value). exists (cell r c). split.
    + apply in_getitem. eauto.
    + now rewrite Hna.
Qed.

Lemma not_allowed_issue_iff df required_cols expected_types ranges
  allowed_values unique_key_cols email_cols idx col allowed v :
  In (Build_Issue (Some idx) (Some col) (Value_not_allowed allowed) (PCell v))
     (fst (validate_dataframe text_to_number datetime_unread df required_cols
             expected_types ranges allowed_values unique_key_cols email_cols))
  <-> In (col, allowed) allowed_values /\ has_column df col = true
      /\ exists r, nth_error (rows df) idx = Some r /\ v = cell r col
                   /\ isna_value v = false
                   /\ existsb (value_eqb v) allowed = false.
Proof.
  split.
  - intros Hin. apply issues_emitted in Hin.
    remember (Build_Issue (Some idx) (Some col) (Value_not_allowed allowed)
                (PCell v)) as i eqn:Hi.
    destruct Hin as
      [ | | | | | | | | | col' allowed' idx' r Hitem Hhas Hr Hna Hout | ];
      unfold duplicate_key_issue, duplicate_row_issue, unknown_type_issue,
        below_min_issue, above_max_issue in Hi;
      try discriminate Hi.
    inversion Hi as [[Hidx Hcol Hallowed Hv]]. subst idx' col' allowed' v.
    rewrite (at_of_row df idx col Hr).
    split; [exact Hitem|]. split; [exact Hhas|]. exists r. auto.
  - intros [Hitem [Hhas [r [Hr [Hv [Hna Hout]]]]]]. subst v.
    rewrite validate_issues. unfold all_issues. rewrite !in_app_iff.
    do 5 right. left. apply in_flat_map. exists (col, allowed).
    split; [exact Hitem|].
    unfold allowed_issues_of. cbn [fst snd]. rewrite Hhas. cbn [negb].
    rewrite not_allowed_mask. apply in_map_iff. exists idx.
    split; [now rewrite (at_of_row df idx col Hr)|].
    apply in_index_where.
    apply (in_mapped_series
             (fun v => negb (existsb (value_eqb v) allowed)
                       && negb (isna_value v))).
    exists (cell r col). split.
    + apply in_getitem. eauto.
    + now rewrite Hna, Hout.
Qed.


(** X4. An invalid-email issue is reported for a row and a column of
    [email_cols] exactly when the column is in the dataset and the cell is
    not missing and its text has no '@'; so a number or a boolean in an
    email column is reported, a missing cell never. The issue carries the
    cell. *)
Theorem invalid_email_reported_iff df required_cols expected_types ranges
  allowed_values unique_key_cols email_cols idx col v :
  In (Build_Issue (Some idx) (Some col) Invalid_email (PCell v))
     (fst (validate_dataframe text_to_number datetime_unread df required_cols
             expected_types ranges allowed_values unique_key_cols email_cols))
  <-> (exists cs, email_cols = Some cs /\ In col cs)
      /\ has_column df col = true
      /\ exists r, nth_error (rows df) idx = Some r /\ v = cell r col
                   /\ isna_value v = false /\ has_at_sign v = false.
Proof.
  split.
  - intros Hin. apply issues_emitted in Hin.
    remember (Build_Issue (Some idx) (Some col) Invalid_email (PCell v))
      as i eqn:Hi.
    destruct Hin as
      [ | | | | | | | | | | cs col' idx' r Hec Hcol Hhas Hr Hna Hat ];
      unfold duplicate_key_issue, duplicate_row_issue, unknown_type_issue,
        below_min_issue, above_max_issue in Hi;
      try discriminate Hi.
    inversion Hi as [[Hidx Hcol' Hv]]. subst idx' col' v.
    rewrite (at_of_row df idx col Hr).
    split; [eauto|]. split; [exact Hhas|]. exists r. auto.
  - intros [[cs [Hec Hcol]] [Hhas [r [Hr [Hv [Hna Hat]]]]]]. subst v.
    rewrite validate_issues. unfold all_issues. rewrite !in_app_iff.
    do 6 right. unfold email_issues. rewrite Hec.
    destruct cs as [|c0 cs]; [contradiction|].
    apply in_flat_map. exists col. split; [exact Hcol|].
    unfold email_issues_of. rewrite Hhas. cbn [negb].
    apply in_map_iff. exists idx.
    split; [now rewrite (at_of_row df idx col Hr)|].
    unfold invert, astype_str_contains_at. rewrite map_map. cbn [fst snd].
    apply in_index_where.
    apply (in_mapped_series (fun v => negb (has_at_sign v))).
    exists (cell r col). split.
    + apply in_dropna. split; [|exact Hna]. apply in_getitem. eauto.
    + now rewrite Hat.
Qed.

Lemma in_block_of_types df required_cols expected_types ranges allowed_values
  unique_key_cols email_cols i :
  In i (fst (validate_dataframe text_to_number datetime_unread df required_cols
               expected_types ranges allowed_values unique_key_cols
               email_cols)) ->
  block_of (issue i) = 4 ->
  In i (flat_map (type_issues_of text_to_number datetime_unread df)
          expected_types).
Proof.
  rewrite validate_issues. unfold all_issues. rewrite !in_app_iff.
  intros [H | [H | [H | [H | [H | [H | H]]]]]] Hblock; try exact H; exfalso.
  - rewrite (block_of_required _ _ _ H) in Hblock. discriminate.
  - rewrite (block_of_missing_value _ _ _ H) in Hblock. discriminate.
  - rewrite (block_of_duplicate _ _ _ H) in Hblock. discriminate.
  - rewrite (block_of_range _ _ _ H) in Hblock. discriminate.
  - rewrite (block_of_allowed _ _ _ H) in Hblock. discriminate.
  - rewrite (block_of_email _ _ _ H) in Hblock. discriminate.
Qed.

Lemma type_issues_message df item i :
  In i (type_issues_of text_to_number datetime_unread df item) ->
  issue i = Type_mismatch (snd item)
  \/ issue i = Unknown_expected_type (snd item).
Proof.
  unfold type_issues_of, type_mismatch_issues. intros Hi.
  repeat match type of Hi with
         | context [if ?b then _ else _] => destruct b
         end;
    try contradiction;
    try (apply in_map_iff in Hi; destruct Hi as [idx [<- _]]; now left).
  destruct Hi as [<- | []]. now right.
Qed.

Lemma type_issues_of_number df col type_name :
  has_column df col = true ->
  type_name = "int" \/ type_name = "float" ->
  type_issues_of text_to_number datetime_unread df (col, type_name)
  = type_mismatch_issues df col type_name
      (isna_numeric (to_numeric text_to_number (dropna (getitem df col)))).
Proof.
  intros Hhas Hnumber. unfold type_issues_of. cbn [fst snd].
  rewrite Hhas. cbn [negb]. now destruct Hnumber as [-> | ->].
Qed.

Lemma in_uncoerced_rows df col idx :
  In idx (index_where
            (isna_numeric
               (to_numeric text_to_number (dropna (getitem df col)))))
  <-> exists r, nth_error (rows df) idx = Some r
                /\ isna_value (cell r col) = false
                /\ to_numeric_value text_to_number (cell r col) = None.
Proof.
  rewrite in_index_where. unfold isna_numeric, to_numeric. rewrite map_map.
  cbn [fst snd].
  rewrite (in_mapped_series
             (fun v => match to_numeric_value text_to_number v with
                       | Some _ => false
                       | None => true
                       end)).
  split.
  - intros [v [Hv Hnone]]. apply in_dropna in Hv. destruct Hv as [Hv Hna].
    apply in_getitem in Hv. destruct Hv as [r [Hr ->]]. exists r.
    repeat split; auto.
    destruct (to_numeric_value text_to_number (cell r col));
      [discriminate | reflexivity].
  - intros [r [Hr [Hna Hnone]]]. exists (cell r col). split.
    + apply in_dropna. split; [|exact Hna]. apply in_getitem. eauto.
    + now rewrite Hnone.
Qed.

(** X5. For an expected type int or float (the two are checked alike), a
    type-mismatch issue is reported for a row and a column exactly when the
    column is in the dataset and the cell is not missing and fails the
    numeric coercion; a cell that is a number, an integer or not, is never a
    mismatch, for int either. The issue carries the raw cell. *)
Theorem numeric_type_mismatch_reported_iff df required_cols expected_types
  ranges allowed_values unique_key_cols email_cols idx col type_name v :
  type_name = "int" \/ type_name = "float" ->
  In (Build_Issue (Some idx) (Some col) (Type_mismatch type_name) (PCell v))
     (fst (validate_dataframe text_to_number datetime_unread df required_cols
             expected_types ranges allowed_values unique_key_cols email_cols))
  <-> In (col, type_name) expected_types /\ has_column df col = true
      /\ exists r, nth_error (rows df) idx = Some r /\ v = cell r col
                   /\ isna_value v = false
                   /\ to_numeric_value text_to_number v = None.
Proof.
  intros Hnumber. split.
  - intros Hin. apply in_block_of_types in Hin; [|reflexivity].
    apply in_flat_map in Hin. destruct Hin as [[c t] [Hitem Hi]].
    pose proof (type_issues_column _ _ _ Hi) as Hcol. cbn in Hcol.
    inversion Hcol; subst c.
    destruct (type_issues_message _ _ _ Hi) as [Hmsg | Hmsg];
      cbn in Hmsg; inversion Hmsg; subst t.
    destruct (has_column df col) eqn:Hhas.
    + rewrite (@type_issues_of_number df col type_name Hhas Hnumber) in Hi.
      unfold type_mismatch_issues in Hi. apply in_map_iff in Hi.
      destruct Hi as [idx' [Hrec Hidx]].
      inversion Hrec as [[Hidx' Hv]]. subst idx'.
      apply in_uncoerced_rows in Hidx. destruct Hidx as [r [Hr [Hna Hnone]]].
      rewrite (at_of_row df idx col Hr).
      split; [exact Hitem|]. split; [reflexivity|]. exists r. auto.
    + unfold type_issues_of in Hi. cbn [fst snd] in Hi.
      rewrite Hhas in Hi. contradiction.
  - intros [Hitem [Hhas [r [Hr [Hv [Hna Hnone]]]]]]. subst v.
    rewrite validate_issues. unfold all_issues. rewrite !in_app_iff.
    do 3 right. left. apply in_flat_map. exists (col, type_name).
    split; [exact Hitem|].
    rewrite (@type_issues_of_number df col type_name Hhas Hnumber).
    unfold type_mismatch_issues. apply in_map_iff. exists idx.
    split; [now rewrite (at_of_row df idx col Hr)|].
    apply in_uncoerced_rows. eauto.
Qed.

(** X6. The range check on each side. A below-min issue with bound [m] is
    reported for a row and a column exactly when [ranges] has an item of the
    column with minimum [m], the column is in the dataset, and the cell
    coerces to a float64 number strictly below [m] (an integer cell is
    rounded to the nearest float before it is compared); and likewise an
    above-max issue for a number strictly above the maximum. The issue
    carries the raw cell. *)
Theorem range_issue_reported_iff df required_cols expected_types ranges
  allowed_values unique_key_cols email_cols idx col m v :
  (In (Build_Issue (Some idx) (Some col) (Value_below_min m) (PCell v))
      (fst (validate_dataframe text_to_number datetime_unread df required_cols
              expected_types ranges allowed_values unique_key_cols email_cols))
   <-> exists max_val r x,
         In (col, (Some m, max_val)) ranges /\ has_column df col = true
         /\ nth_error (rows df) idx = Some r /\ v = cell r col
         /\ to_numeric_value text_to_number v = Some x /\ (x < m)%Q)
  /\ (In (Build_Issue (Some idx) (Some col) (Value_above_max m) (PCell v))
         (fst (validate_dataframe text_to_number datetime_unread df
                 required_cols expected_types ranges allowed_values
                 unique_key_cols email_cols))
      <-> exists min_val r x,
            In (col, (min_val, Some m)) ranges /\ has_column df col = true
            /\ nth_error (rows df) idx = Some r /\ v = cell r col
            /\ to_numeric_value text_to_number v = Some x /\ (m < x)%Q).
Proof.
  assert (Hrange : forall item i,
             In item ranges ->
             In i (range_issues_of text_to_number df item) ->
             In i (fst (validate_dataframe text_to_number datetime_unread df
                          required_cols expected_types ranges allowed_values
                          unique_key_cols email_cols))).
  { intros item i Hitem Hi. rewrite validate_issues. unfold all_issues.
    rewrite !in_app_iff. do 4 right. left. apply in_flat_map. eauto. }
  split; split.
  - intros Hin. apply issues_emitted in Hin.
    remember (Build_Issue (Some idx) (Some col) (Value_below_min m) (PCell v))
      as i eqn:Hi.
    destruct Hin as
      [ | | | | | | | col' mn mx idx' r x Hitem Hhas Hr Hx Hlt | | | ];
      unfold duplicate_key_issue, duplicate_row_issue, unknown_type_issue,
        below_min_issue, above_max_issue in Hi;
      try discriminate Hi.
    inversion Hi as [[Hidx Hcol Hm Hv]]. subst idx' col' mn v.
    rewrite (at_of_row df idx col Hr). exists mx, r, x.
    repeat split; auto. now apply Qltb_lt.
  - intros [mx [r [x [Hitem [Hhas [Hr [Hv [Hx Hlt]]]]]]]]. subst v.
    apply (Hrange _ _ Hitem). unfold range_issues_of. cbn [fst snd].
    rewrite Hhas. cbn [negb]. apply in_app_iff. left.
    apply in_map_iff. exists idx. unfold below_min_issue.
    split; [now rewrite (at_of_row df idx col Hr)|].
    apply in_below_min_rows. exists r, x. repeat split; auto.
    now apply Qltb_lt.
  - intros Hin. apply issues_emitted in Hin.
    remember (Build_Issue (Some idx) (Some col) (Value_above_max m) (PCell v))
      as i eqn:Hi.
    destruct Hin as
      [ | | | | | | | | col' mn mx idx' r x Hitem Hhas Hr Hx Hlt | | ];
      unfold duplicate_key_issue, duplicate_row_issue, unknown_type_issue,
        below_min_issue, above_max_issue in Hi;
      try discriminate Hi.
    inversion Hi as [[Hidx Hcol Hm Hv]]. subst idx' col' mx v.
    rewrite (at_of_row df idx col Hr). exists mn, r, x.
    repeat split; auto. now apply Qltb_lt.
  - intros [mn [r [x [Hitem [Hhas [Hr [Hv [Hx Hlt]]]]]]]]. subst v.
    apply (Hrange _ _ Hitem). unfold range_issues_of. cbn [fst snd].
    rewrite Hhas. cbn [negb]. apply in_app_iff. right.
    apply in_map_iff. exists idx. unfold above_max_issue.
    split; [now rewrite (at_of_row df idx col Hr)|].
    apply in_above_max_rows. exists r, x. repeat split; auto.
    now apply Qltb_lt.
Qed.

(** X7. The bounds of a range are inclusive and an absent bound never
    fires: when [ranges] is a dict (its columns are distinct) and the cell
    of a row coerces to a number between the bounds that are set, the
    bounds included, no below-min and no above-max issue is reported for
    that row and column. *)
Theorem value_within_bounds_not_reported df required_cols expected_types
  ranges allowed_values unique_key_cols email_cols idx col min_val max_val
  r x i :
  NoDup (map fst ranges) ->
  In (col, (min_val, max_val)) ranges ->
  nth_error (rows df) idx = Some r ->
  to_numeric_value text_to_number (cell r col) = Some x ->
  (forall m, min_val = Some m -> (m <= x)%Q) ->
  (forall m, max_val = Some m -> (x <= m)%Q) ->
  In i (fst (validate_dataframe text_to_number datetime_unread df required_cols
               expected_types ranges allowed_values unique_key_cols
               email_cols)) ->
  row_index i = Some idx -> column i = Some col ->
  forall m, issue i <> Value_below_min m /\ issue i <> Value_above_max m.
Proof.
  intros Hdict Hitem Hr Hx Hmin Hmax Hin Hrow Hcol m.
  apply issues_emitted in Hin.
  destruct Hin as
    [ | | | | | |
    | col' mn mx idx' r' x' Hitem' _ Hr' Hx' Hlt
    | col' mn mx idx' r' x' Hitem' _ Hr' Hx' Hlt
    | | ];
    cbn [issue duplicate_key_issue duplicate_row_issue unknown_type_issue];
    try (split; discriminate);
    exfalso; cbn in Hrow, Hcol;
    inversion Hrow; inversion Hcol; subst idx' col';
    pose proof (@dict_value_unique _ _ _ _ _ Hdict Hitem Hitem') as Hsame;
    inversion Hsame; subst;
    assert (r' = r) by congruence; subst r';
    assert (x' = x) by congruence; subst x';
    apply Qltb_lt in Hlt.
  - specialize (Hmin mn eq_refl). now apply Qlt_not_le in Hlt.
  - specialize (Hmax mx eq_refl). now apply Qlt_not_le in Hlt.
Qed.

(** *** The order and the content of the result *)

(** A list of issues in which no issue comes before an issue of an earlier
    block. *)
Definition in_block_order (l : list Issue) : Prop :=
  forall p q i j,
    p < q -> nth_error l p = Some i -> nth_error l q = Some j ->
    block_of (issue i) <= block_of (issue j).

Lemma one_block_then_later (k : nat) (l rest : list Issue) :
  (forall i, In i l -> block_of (issue i) = k) ->
  (forall j, In j rest -> k <= block_of (issue j)) ->
  in_block_order rest ->
  in_block_order (l ++ rest).
Proof.
  intros Hl Hrest Hordered p q i j Hpq Hp Hq.
  destruct (Nat.lt_ge_cases p (List.length l)) as [Hpl | Hpl];
    destruct (Nat.lt_ge_cases q (List.length l)) as [Hql | Hql];
    try lia.
  - rewrite nth_error_app1 in Hp, Hq by assumption.
    apply nth_error_In in Hp, Hq. rewrite (Hl i Hp), (Hl j Hq). lia.
  - rewrite nth_error_app1 in Hp by assumption.
    rewrite nth_error_app2 in Hq by assumption.
    apply nth_error_In in Hp, Hq. rewrite (Hl i Hp). now apply Hrest.
  - rewrite nth_error_app2 in Hp, Hq by assumption.
    apply (Hordered (p - List.length l) (q - List.length l)); auto. lia.
Qed.

Lemma one_block_in_order (k : nat) (l : list Issue) :
  (forall i, In i l -> block_of (issue i) = k) ->
  in_block_order l /\ (forall j, In j l -> k <= block_of (issue j)).
Proof.
  intros Hl. split.
  - intros p q i j _ Hp Hq. apply nth_error_In in Hp, Hq.
    rewrite (Hl i Hp), (Hl j Hq). lia.
  - intros j Hj. rewrite (Hl j Hj). lia.
Qed.

Lemma block_then_later (k : nat) (l rest : list Issue) :
  (forall i, In i l -> block_of (issue i) = k) ->
  in_block_order rest /\ (forall j, In j rest -> S k <= block_of (issue j)) ->
  in_block_order (l ++ rest)
  /\ (forall j, In j (l ++ rest) -> k <= block_of (issue j)).
Proof.
  intros Hl [Hordered Hrest]. split.
  - apply (@one_block_then_later k); auto.
    intros j Hj. specialize (Hrest j Hj). lia.
  - intros j Hj. apply in_app_iff in Hj. destruct Hj as [Hj | Hj].
    + rewrite (Hl j Hj). lia.
    + specialize (Hrest j Hj). lia.
Qed.

(** X8. The issues of the result follow the order of the checks: required
    columns, missing values, duplicates, types, ranges, allowed values,
    emails. An issue never comes before an issue of an earlier check. *)
Theorem issues_follow_the_checks df required_cols expected_types ranges
  allowed_values unique_key_cols email_cols :
  in_block_order
    (fst (validate_dataframe text_to_number datetime_unread df required_cols
            expected_types ranges allowed_values unique_key_cols email_cols)).
Proof.
  rewrite validate_issues. unfold all_issues.
  enough (H : in_block_order
                (required_issues df required_cols
                 ++ missing_value_issues df required_cols
                 ++ duplicate_issues df unique_key_cols
                 ++ flat_map (type_issues_of text_to_number datetime_unread df)
                      expected_types
                 ++ flat_map (range_issues_of text_to_number df) ranges
                 ++ flat_map (allowed_issues_of df) allowed_values
                 ++ email_issues df email_cols)
              /\ (forall j, In j (required_issues df required_cols
                                  ++ missing_value_issues df required_cols
                                  ++ duplicate_issues df unique_key_cols
                                  ++ flat_map (type_issues_of text_to_number
                                                 datetime_unread df)
                                       expected_types
                                  ++ flat_map (range_issues_of text_to_number df)
                                       ranges
                                  ++ flat_map (allowed_issues_of df)
                                       allowed_values
                                  ++ email_issues df email_cols) ->
                             1 <= block_of (issue j)))
    by apply H.
  apply (@block_then_later 1); [apply block_of_required|].
  apply (@block_then_later 2); [apply block_of_missing_value|].
  apply (@block_then_later 3); [apply block_of_duplicate|].
  apply (@block_then_later 4); [apply block_of_type|].
  apply (@block_then_later 5); [apply block_of_range|].
  apply (@block_then_later 6); [apply block_of_allowed|].
  apply (@one_block_in_order 7). apply block_of_email.
Qed.

Lemma coerced_cell_not_missing (v : scalar) (x : Q) :
  to_numeric_value text_to_number v = Some x -> isna_value v = false.
Proof. destruct v; simpl; congruence. Qed.

(** X9. What an issue of the result points at. A row index is the index
    of a row of the dataset; a dataset-level issue has no value; and a cell
    carried as value is the raw cell of the issue's row and column, the
    column is in the dataset and the cell is not missing. *)
Theorem issues_point_into_the_dataset df required_cols expected_types ranges
  allowed_values unique_key_cols email_cols i :
  In i (fst (validate_dataframe text_to_number datetime_unread df required_cols
               expected_types ranges allowed_values unique_key_cols
               email_cols)) ->
  (forall idx, row_index i = Some idx -> idx < len df)
  /\ (row_index i = None -> value i = PNone)
  /\ (forall v, value i = PCell v ->
                isna_value v = false
                /\ exists idx col,
                     row_index i = Some idx /\ column i = Some col
                     /\ has_column df col = true /\ v = at_ df idx col).
Proof.
  intros Hin. apply issues_emitted in Hin.
  assert (Hlen : forall idx r, nth_error (rows df) idx = Some r -> idx < len df).
  { intros idx r Hr. apply nth_error_Some. congruence. }
  destruct Hin as
    [ c _ _ | c idx r _ _ Hr _ | ks c _ _ _ | ks idx _ _ Hdup | idx _ Hdup
    | col t idx r _ Hhas _ Hr Hna | col t _ _ _
    | col mn mx idx r x _ Hhas Hr Hx _ | col mn mx idx r x _ Hhas Hr Hx _
    | col allowed idx r _ Hhas Hr Hna _ | cs col idx r _ _ Hhas Hr Hna _ ];
    cbn [row_index column issue value duplicate_key_issue duplicate_row_issue
           unknown_type_issue below_min_issue above_max_issue];
    (split; [intros idx' Heq | split; [intros Heq | intros v Heq]]);
    try discriminate Heq; try reflexivity;
    try (inversion Heq; subst; eapply Hlen; eassumption).
  - inversion Heq; subst idx'.
    apply in_duplicated in Hdup. destruct Hdup as [r [_ [_ [Hr _]]]]. eauto.
  - inversion Heq; subst idx'.
    apply in_duplicated in Hdup. destruct Hdup as [r [_ [_ [Hr _]]]]. eauto.
  - inversion Heq; subst v.
    split; [now rewrite (at_of_row df idx col Hr) | exists idx, col; auto].
  - inversion Heq; subst v. split; [|exists idx, col; auto].
    rewrite (at_of_row df idx col Hr). exact (coerced_cell_not_missing _ Hx).
  - inversion Heq; subst v. split; [|exists idx, col; auto].
    rewrite (at_of_row df idx col Hr). exact (coerced_cell_not_missing _ Hx).
  - inversion Heq; subst v.
    split; [now rewrite (at_of_row df idx col Hr) | exists idx, col; auto].
  - inversion Heq; subst v.
    split; [now rewrite (at_of_row df idx col Hr) | exists idx, col; auto].
Qed.

(** *** The summary *)

Lemma count_one_adds_one (m : message) (d : list (message * nat)) :
  list_sum (map snd (count_one m d)) = S (list_sum (map snd d)).
Proof.
  induction d as [|[k n] d IH]; simpl; [reflexivity|].
  destruct (message_eqb m k); simpl; [reflexivity|]. rewrite IH. lia.
Qed.

Lemma count_one_positive (m : message) (d : list (message * nat)) :
  Forall (fun kn => 1 <= snd kn) d ->
  Forall (fun kn => 1 <= snd kn) (count_one m d).
Proof.
  induction 1 as [|[k n] d Hn Hd IH]; simpl.
  - repeat constructor.
  - destruct (message_eqb m k); constructor; simpl in *; auto; lia.
Qed.

Lemma value_counts_from (texts : list message) (d : list (message * nat)) :
  Forall (fun kn => 1 <= snd kn) d ->
  list_sum (map snd (fold_left (fun d m => count_one m d) texts d))
  = List.length texts + list_sum (map snd d)
  /\ Forall (fun kn => 1 <= snd kn)
       (fold_left (fun d m => count_one m d) texts d).
Proof.
  revert d. induction texts as [|m texts IH]; intros d Hd; simpl; [auto|].
  destruct (IH (count_one m d) (count_one_positive m Hd)) as [Hsum Hpos].
  rewrite Hsum, count_one_adds_one. split; [lia | exact Hpos].
Qed.

(** X10. In the summary the counts of [issue_types] add up to
    [total_issues], and every text listed there has a count of at least
    one. *)
Theorem issue_types_add_up df required_cols expected_types ranges
  allowed_values unique_key_cols email_cols :
  let summary :=
    snd (validate_dataframe text_to_number datetime_unread df required_cols
           expected_types ranges allowed_values unique_key_cols email_cols) in
  list_sum (map snd (issue_types summary)) = total_issues summary
  /\ Forall (fun kn => 1 <= snd kn) (issue_types summary).
Proof.
  unfold validate_dataframe. cbn [snd issue_types total_issues].
  match goal with
  | |- context [List.length ?l] => generalize l
  end.
  intros issues. destruct issues as [|i issues]; [split; [reflexivity | constructor]|].
  unfold value_counts.
  destruct (@value_counts_from (map issue (i :: issues)) [] (Forall_nil _))
    as [Hsum Hpos].
  rewrite Hsum, length_map. split; [cbn; lia | exact Hpos].
Qed.

(** *** Absent names *)

Lemma filter_twice (A : Type) (p : A -> bool) (l : list A) :
  filter p (filter p l) = filter p l.
Proof.
  apply filter_all. intros x Hx. now apply filter_In in Hx.
Qed.

Lemma missing_key_issue_block (i : Issue) :
  is_missing_key_issue i = true -> block_of (issue i) = 3.
Proof.
  unfold is_missing_key_issue. destruct (issue i); now try discriminate.
Qed.

Lemma keep_unless_missing_key (k : nat) (l : list Issue) :
  (forall i, In i l -> block_of (issue i) = k) -> k <> 3 ->
  filter (fun i => negb (is_missing_key_issue i)) l = l.
Proof.
  intros Hl Hk. apply filter_all. intros i Hi.
  destruct (is_missing_key_issue i) eqn:Hsel; [|reflexivity].
  apply missing_key_issue_block in Hsel. apply Hl in Hi. congruence.
Qed.

(** X11. In keyed mode the key columns that are not in the dataset are
    reported and otherwise ignored: when at least one listed key column is
    present, the result without its missing-key-column issues is the result
    of the run whose [unique_key_cols] lists the present key columns
    only. *)
Theorem absent_key_columns_do_not_change_groups df required_cols
  expected_types ranges allowed_values email_cols ks :
  filter (has_column df) ks <> [] ->
  filter (fun i => negb (is_missing_key_issue i))
    (fst (validate_dataframe text_to_number datetime_unread df required_cols
            expected_types ranges allowed_values (Some ks) email_cols))
  = fst (validate_dataframe text_to_number datetime_unread df required_cols
           expected_types ranges allowed_values
           (Some (filter (has_column df) ks)) email_cols).
Proof.
  intros Hkeys. rewrite !validate_issues. unfold all_issues.
  rewrite !filter_app.
  rewrite (@keep_unless_missing_key 1 _ (@block_of_required df required_cols))
    by discriminate.
  rewrite (@keep_unless_missing_key 2 _
             (@block_of_missing_value df required_cols)) by discriminate.
  rewrite (@keep_unless_missing_key 4 _ (@block_of_type df expected_types))
    by discriminate.
  rewrite (@keep_unless_missing_key 5 _ (@block_of_range df ranges))
    by discriminate.
  rewrite (@keep_unless_missing_key 6 _ (@block_of_allowed df allowed_values))
    by discriminate.
  rewrite (@keep_unless_missing_key 7 _ (@block_of_email df email_cols))
    by discriminate.
  do 2 f_equal. f_equal.
  unfold duplicate_issues.
  destruct ks as [|k ks]; [now destruct Hkeys|].
  destruct (filter (has_column df) (k :: ks)) as [|c cs] eqn:Hpresent;
    [now destruct Hkeys|].
  rewrite filter_app.
  assert (Hnone : missing_key_issues df (c :: cs) = []).
  { unfold missing_key_issues. rewrite <- Hpresent.
    rewrite (@filter_none _ (fun c0 => negb (has_column df c0))
               (filter (has_column df) (k :: ks))); [reflexivity|].
    intros x Hx. apply filter_In in Hx. destruct Hx as [_ Hx].
    now rewrite Hx. }
  rewrite Hnone. cbn [app].
  rewrite (@filter_none _ (fun i => negb (is_missing_key_issue i))
             (missing_key_issues df (k :: ks))).
  - assert (Hidem : filter (has_column df) (c :: cs) = c :: cs)
      by (rewrite <- Hpresent; apply filter_twice).
    cbn [app]. unfold duplicate_key_issues. rewrite Hpresent, Hidem.
    apply filter_all. intros i Hi. apply in_map_iff in Hi.
    now destruct Hi as [idx [<- _]].
  - intros i Hi. unfold missing_key_issues in Hi. apply in_map_iff in Hi.
    now destruct Hi as [c0 [<- _]].
Qed.

Lemma plain_absent_name_dataset_level df required_cols expected_types
  ranges allowed_values unique_key_cols email_cols c i :
  has_column df c = false -> has_comma c = false ->
  In i (fst (validate_dataframe text_to_number datetime_unread df required_cols
               expected_types ranges allowed_values unique_key_cols
               email_cols)) ->
  column i = Some c ->
  row_index i = None /\ value i = PNone
  /\ (issue i = Missing_required_column
      \/ issue i = Missing_key_column_for_duplicate_check).
Proof.
  intros Habsent Hplain Hi Hcol. apply issues_emitted in Hi.
  destruct Hi as
    [ c' _ _ | c' idx r _ Hhas _ _ | ks c' _ _ _ | ks idx Huk Hkeys _ | idx _ _
    | col t idx r _ Hhas _ _ _ | col t _ Hhas _
    | col mn mx idx r x _ Hhas _ _ _ | col mn mx idx r x _ Hhas _ _ _
    | col allowed idx r _ Hhas _ _ _ | cs col idx r _ _ Hhas _ _ _ ];
    cbn in Hcol; try discriminate;
    try (inversion Hcol; subst; congruence).
  - cbn. auto.
  - cbn. auto.
  - exfalso.
    destruct (filter (has_column df) ks) as [|c1 [|c2 cs]] eqn:Hfilter.
    + now destruct Hkeys.
    + cbn in Hcol. inversion Hcol; subst c1.
      assert (Hin : In c (filter (has_column df) ks))
        by (rewrite Hfilter; now left).
      apply filter_In in Hin. destruct Hin as [_ Hhas]. congruence.
    + inversion Hcol; subst c.
      exact (Bool.eq_true_false_abs _ (joined_keys_have_comma c1 c2 cs) Hplain).
Qed.

(** X12. A column name without a comma that is not in the dataset gets
    dataset-level issues only: every issue of the result whose column field
    is that name has no row index and no value, and reports the name as a
    missing required column or as a missing key column. *)
Theorem absent_plain_name_has_no_row_issue df required_cols expected_types
  ranges allowed_values unique_key_cols email_cols c i :
  has_column df c = false -> has_comma c = false ->
  In i (fst (validate_dataframe text_to_number datetime_unread df required_cols
               expected_types ranges allowed_values unique_key_cols
               email_cols)) ->
  column i = Some c ->
  row_index i = None /\ value i = PNone
  /\ (issue i = Missing_required_column
      \/ issue i = Missing_key_column_for_duplicate_check).
Proof. apply plain_absent_name_dataset_level. Qed.

End Properties.

(** ** The exported table *)

Lemma first_seen_known (seen keys : list string) :
  (forall k, In k keys -> existsb (String.eqb k) seen = true) ->
  first_seen seen keys = seen.
Proof.
  induction keys as [|k keys IH]; intros H; simpl; [reflexivity|].
  rewrite (H k (or_introl eq_refl)). apply IH. intros k' Hk'. apply H.
  now right.
Qed.

Lemma issue_record_keys (issues : list Issue) k :
  In k (flat_map (map fst) (map issue_record issues)) ->
  existsb (String.eqb k) ["row_index"; "column"; "issue"; "value"] = true.
Proof.
  rewrite in_flat_map. intros [rec [Hrec Hk]].
  apply in_map_iff in Hrec. destruct Hrec as [i [<- _]].
  cbn in Hk. destruct Hk as [<- | [<- | [<- | [<- | []]]]]; reflexivity.
Qed.

(** C9, as amended. For every issue list that is not empty, [issues_to_df]
    returns a table with exactly the four columns row_index, column, issue,
    value, in this order, and one row for each issue, in the order of the
    list; the value of an issue is kept as it is, so the dict of a
    duplicate-key issue stays a dict from key column to value. *)
Theorem issues_to_df_of_issues (issues : list Issue) :
  issues <> [] ->
  table_columns (issues_to_df issues) = ["row_index"; "column"; "issue"; "value"]
  /\ table_rows (issues_to_df issues)
     = map (fun i => [FRowIndex (row_index i); FColumn (column i);
                      FIssue (issue i); FValue (value i)]) issues.
Proof.
  intros Hsome. unfold issues_to_df, DataFrame_of_records.
  cbn [table_columns table_rows].
  assert (Hcols : first_seen [] (flat_map (map fst) (map issue_record issues))
                  = ["row_index"; "column"; "issue"; "value"]).
  { destruct issues as [|i issues]; [congruence|].
    cbn [map flat_map issue_record fst app first_seen existsb].
    cbn. apply first_seen_known. apply issue_record_keys. }
  rewrite Hcols. split; [reflexivity|].
  rewrite map_map. apply map_ext. intros i. reflexivity.
Qed.

(** ** Stripping and splitting *)

(** A text that does not start with a white character. *)
Definition starts_clean (s : string) : Prop :=
  match s with
  | EmptyString => True
  | String c _ => py.isspace c = false
  end.

Lemma lstrip_starts_clean (s : string) : starts_clean (py.lstrip s).
Proof.
  induction s as [|c s IH]; simpl; [exact I|].
  destruct (py.isspace c) eqn:Hc; [exact IH | exact Hc].
Qed.

Lemma lstrip_of_clean (s : string) : starts_clean s -> py.lstrip s = s.
Proof. destruct s as [|c s]; simpl; [reflexivity|]. now intros ->. Qed.

Lemma rstrip_starts_clean (s : string) :
  starts_clean s -> starts_clean (py.rstrip s).
Proof.
  destruct s as [|c s]; simpl; [auto|]. intros Hc.
  destruct (py.rstrip s); [now rewrite Hc | exact Hc].
Qed.

Lemma rstrip_twice (s : string) : py.rstrip (py.rstrip s) = py.rstrip s.
Proof.
  induction s as [|c s IH]; simpl; [reflexivity|].
  destruct (py.rstrip s) as [|a r] eqn:Hr.
  - destruct (py.isspace c) eqn:Hc; simpl; [reflexivity | now rewrite Hc].
  - change (py.rstrip (String c (String a r))) with
      (match py.rstrip (String a r) with
       | EmptyString =>
           if py.isspace c then EmptyString else String c EmptyString
       | r' => String c r'
       end).
    now rewrite IH.
Qed.

Lemma strip_twice (s : string) : py.strip (py.strip s) = py.strip s.
Proof.
  unfold py.strip.
  rewrite lstrip_of_clean by apply rstrip_starts_clean, lstrip_starts_clean.
  apply rstrip_twice.
Qed.

Lemma contains_lstrip (c : ascii) (s : string) :
  py.contains c (py.lstrip s) = true -> py.contains c s = true.
Proof.
  induction s as [|a s IH]; simpl; [auto|].
  destruct (py.isspace a); [|auto].
  intros H. rewrite (IH H). apply orb_true_r.
Qed.

Lemma contains_rstrip (c : ascii) (s : string) :
  py.contains c (py.rstrip s) = true -> py.contains c s = true.
Proof.
  induction s as [|a s IH]; simpl; [auto|].
  destruct (py.rstrip s) as [|b r].
  - destruct (py.isspace a); simpl; [discriminate|].
    rewrite orb_false_r. intros ->. reflexivity.
  - simpl. intros H. apply orb_true_iff in H. destruct H as [H | H].
    + now rewrite H.
    + rewrite IH; [apply orb_true_r|]. exact H.
Qed.

Lemma strip_keeps_out (c : ascii) (s : string) :
  py.contains c s = false -> py.contains c (py.strip s) = false.
Proof.
  intros Hout. destruct (py.contains c (py.strip s)) eqn:Hin; [|reflexivity].
  apply contains_rstrip, contains_lstrip in Hin. congruence.
Qed.

Lemma split_parts_without (sep : ascii) (s : string) :
  py.split sep s <> []
  /\ forall p, In p (py.split sep s) -> py.contains sep p = false.
Proof.
  induction s as [|c s [Hne IH]]; simpl.
  - split; [discriminate|]. intros p [<- | []]. reflexivity.
  - destruct (Ascii.eqb c sep) eqn:Hc.
    + split; [discriminate|]. intros p [<- | Hp]; [reflexivity | now apply IH].
    + destruct (py.split sep s) as [|q qs]; [now destruct Hne|].
      split; [discriminate|]. intros p [<- | Hp].
      * simpl. rewrite Hc. apply IH. now left.
      * apply IH. now right.
Qed.

Lemma split_once_at_first (sep : ascii) (s : string) :
  py.contains sep s = true ->
  exists a b,
    py.split_once sep s = [a; b] /\ py.contains sep a = false
    /\ s = (a ++ String sep b)%string.
Proof.
  induction s as [|c s IH]; simpl; [discriminate|].
  destruct (Ascii.eqb c sep) eqn:Hc.
  - intros _. apply Ascii.eqb_eq in Hc. subst c.
    exists EmptyString, s. auto.
  - simpl. intros Hs. destruct (IH Hs) as [a [b [Hsplit [Ha Hcat]]]].
    rewrite Hsplit. exists (String c a), b. simpl. rewrite Hc, Ha, <- Hcat.
    auto.
Qed.

(** ** Dicts built by assignment *)

(** The dict a loop of assignments [out[k] = v] builds from the empty
    dict. *)
Definition dict_of (A : Type) (items : list (string * A)) (out : list (string * A))
  : list (string * A) :=
  fold_left (fun d item => py.dict_set (fst item) (snd item) d) items out.

Lemma dict_set_keys (A : Type) (k : string) (v : A) (d : list (string * A)) k' :
  In k' (map fst (py.dict_set k v d)) <-> k' = k \/ In k' (map fst d).
Proof.
  induction d as [|[k0 v0] d IH]; simpl.
  - intuition.
  - destruct (String.eqb k k0) eqn:Hk; simpl.
    + apply String.eqb_eq in Hk. subst k0. intuition.
    + rewrite IH. intuition.
Qed.

Lemma dict_set_NoDup (A : Type) (k : string) (v : A) (d : list (string * A)) :
  NoDup (map fst d) -> NoDup (map fst (py.dict_set k v d)).
Proof.
  induction d as [|[k0 v0] d IH]; simpl; intros Hd.
  - repeat constructor. intros [].
  - inversion Hd as [|x xs Hfresh Hrest]; subst.
    destruct (String.eqb k k0) eqn:Hk; simpl.
    + apply String.eqb_eq in Hk. subst k0. now constructor.
    + constructor; [|now apply IH].
      rewrite dict_set_keys. intros [-> | Hin]; [|contradiction].
      now rewrite String.eqb_refl in Hk.
Qed.

Lemma dict_set_items (A : Type) (k : string) (v : A) (d : list (string * A))
  k' v' :
  In (k', v') (py.dict_set k v d) -> (k', v') = (k, v) \/ In (k', v') d.
Proof.
  induction d as [|[k0 v0] d IH]; simpl.
  - intros [H | []]. now left.
  - destruct (String.eqb k k0); simpl.
    + intros [H | H]; auto.
    + intros [H | H]; auto. destruct (IH H); auto.
Qed.

Lemma dict_set_lookup (A : Type) (k : string) (v : A) (d : list (string * A)) k' :
  lookup k' (py.dict_set k v d)
  = if String.eqb k' k then Some v else lookup k' d.
Proof.
  induction d as [|[k0 v0] d IH]; simpl.
  - reflexivity.
  - destruct (String.eqb k k0) eqn:Hk; simpl.
    + apply String.eqb_eq in Hk. subst k0.
      now destruct (String.eqb k' k).
    + rewrite IH. destruct (String.eqb k' k0) eqn:Hk0; [|reflexivity].
      apply String.eqb_eq in Hk0. subst k0.
      rewrite String.eqb_sym, Hk. reflexivity.
Qed.

Lemma lookup_app (A : Type) (k : string) (d1 d2 : list (string * A)) :
  lookup k (d1 ++ d2)
  = match lookup k d1 with
    | Some v => Some v
    | None => lookup k d2
    end.
Proof.
  induction d1 as [|[k0 v0] d1 IH]; simpl; [reflexivity|].
  now destruct (String.eqb k k0).
Qed.

(** A dict built by assignments has distinct keys, holds only items that
    were assigned (or were there before), and gives each key the value of
    its last assignment. *)
Lemma dict_of_spec (A : Type) (items out : list (string * A)) :
  NoDup (map fst out) ->
  NoDup (map fst (dict_of items out))
  /\ (forall k v, In (k, v) (dict_of items out) ->
                  In (k, v) items \/ In (k, v) out)
  /\ (forall k, lookup k (dict_of items out)
                = match lookup k (rev items) with
                  | Some v => Some v
                  | None => lookup k out
                  end).
Proof.
  unfold dict_of. revert out.
  induction items as [|[k0 v0] items IH]; intros out Hout; simpl.
  - auto.
  - destruct (IH (py.dict_set k0 v0 out) (@dict_set_NoDup _ k0 v0 out Hout))
      as [Hkeys [Hitems Hlookup]].
    split; [exact Hkeys|]. split.
    + intros k v Hin. destruct (Hitems k v Hin) as [H | H]; [auto|].
      apply dict_set_items in H. destruct H as [H | H]; auto.
    + intros k. rewrite Hlookup, lookup_app, dict_set_lookup. simpl.
      destruct (lookup k (rev items)); [reflexivity|].
      now destruct (String.eqb k k0).
Qed.

(** ** The rule parsers build dicts from the lines that count *)

(** The items the lines of a rule text assign, line by line; [None] when a
    line raises. *)
Fixpoint all_items (B : Type) (item : string -> option (list (string * B)))
  (lines : list string) : option (list (string * B)) :=
  match lines with
  | [] => Some []
  | line :: lines' =>
      match item line, all_items item lines' with
      | Some here, Some later => Some (here ++ later)
      | _, _ => None
      end
  end.

Lemma all_items_None (B : Type) (item : string -> option (list (string * B)))
  (lines : list string) :
  all_items item lines = None
  <-> exists line, In line lines /\ item line = None.
Proof.
  induction lines as [|l lines IH]; simpl.
  - split; [discriminate | intros [line [[] _]]].
  - destruct (item l) as [here|] eqn:Hl.
    + destruct (all_items item lines) as [later|].
      * split; [discriminate|]. intros [line [[<- | Hin] Hnone]];
          [congruence|].
        assert (Hno : Some later = None) by (apply IH; eauto).
        discriminate Hno.
      * split; [|reflexivity]. intros _.
        destruct (proj1 IH eq_refl) as [line [Hin Hnone]]. eauto.
    + split; [|reflexivity]. intros _. exists l. auto.
Qed.

Lemma all_items_Some (B : Type) (item : string -> option (list (string * B)))
  (lines : list string) items k v :
  all_items item lines = Some items -> In (k, v) items ->
  exists line here, In line lines /\ item line = Some here /\ In (k, v) here.
Proof.
  revert items. induction lines as [|l lines IH]; simpl; intros items Hall Hin.
  - inversion Hall; subst. contradiction.
  - destruct (item l) as [here|] eqn:Hl; [|discriminate].
    destruct (all_items item lines) as [later|]; [|discriminate].
    inversion Hall; subst. apply in_app_iff in Hin. destruct Hin as [Hin | Hin].
    + exists l, here. auto.
    + destruct (IH later eq_refl Hin) as [line [here' [H1 [H2 H3]]]].
      exists line, here'. auto.
Qed.

Lemma for_each_builds_dict (B : Type)
  (body : list (string * B) -> string -> option (list (string * B)))
  (item : string -> option (list (string * B))) :
  (forall out line,
      body out line = match item line with
                      | Some here => Some (dict_of here out)
                      | None => None
                      end) ->
  forall lines out,
    for_each body lines out
    = match all_items item lines with
      | Some items => Some (dict_of items out)
      | None => None
      end.
Proof.
  intros Hbody lines. induction lines as [|l lines IH]; intros out; simpl.
  - reflexivity.
  - rewrite Hbody. destruct (item l) as [here|]; [|reflexivity].
    rewrite IH. destruct (all_items item lines) as [later|]; [|reflexivity].
    unfold dict_of. now rewrite fold_left_app.
Qed.

(** The assignment a stripped line of the type rules makes, if any. *)
Definition expected_type_item (line : string) : list (string * string) :=
  if py.contains ":"%char line then
    match py.split_once ":"%char line with
    | [col; t] => [(py.strip col, py.strip t)]
    | _ => []
    end
  else [].

Lemma parse_expected_types_line_item out line :
  parse_expected_types_line out line
  = match Some (expected_type_item line) with
    | Some here => Some (dict_of here out)
    | None => None
    end.
Proof.
  unfold parse_expected_types_line, expected_type_item.
  destruct (py.contains ":"%char line) eqn:Hcolon; [|reflexivity].
  destruct (split_once_at_first _ _ Hcolon) as [a [b [Hsplit _]]].
  now rewrite Hsplit.
Qed.

Lemma all_items_total (B : Type) (item : string -> list (string * B))
  (lines : list string) :
  all_items (fun line => Some (item line)) lines = Some (flat_map item lines).
Proof.
  induction lines as [|l lines IH]; simpl; [reflexivity|]. now rewrite IH.
Qed.

Lemma parse_expected_types_dict (text : string) :
  parse_expected_types text
  = Some (dict_of (flat_map expected_type_item (stripped_lines text)) []).
Proof.
  unfold parse_expected_types.
  rewrite (for_each_builds_dict _ (fun line => Some (expected_type_item line))
             parse_expected_types_line_item).
  now rewrite all_items_total.
Qed.

Lemma expected_type_item_from line k v :
  In (k, v) (expected_type_item line) ->
  exists col t,
    line = (col ++ String ":"%char t)%string
    /\ py.contains ":"%char col = false
    /\ k = py.strip col /\ v = py.strip t.
Proof.
  unfold expected_type_item.
  destruct (py.contains ":"%char line) eqn:Hcolon; [|contradiction].
  destruct (split_once_at_first _ _ Hcolon) as [a [b [Hsplit [Ha Hline]]]].
  rewrite Hsplit. intros [Heq | []]. inversion Heq; subst k v.
  exists a, b. repeat split; assumption.
Qed.

(** X13. [parse_expected_types] never raises, whatever the text, and
    returns a dict: its columns are distinct. Every item comes from a
    non-blank line that has a colon, cut at its first colon; the column and
    the type name are stripped, and the column has no colon (the type name
    may have one). *)
Theorem parse_expected_types_returns_a_dict (text : string) :
  exists d,
    parse_expected_types text = Some d
    /\ NoDup (map fst d)
    /\ forall k v,
         In (k, v) d ->
         py.strip k = k /\ py.strip v = v /\ py.contains ":"%char k = false
         /\ exists line col t,
              In line (stripped_lines text)
              /\ line = (col ++ String ":"%char t)%string
              /\ py.contains ":"%char col = false
              /\ k = py.strip col /\ v = py.strip t.
Proof.
  eexists. split; [apply parse_expected_types_dict|].
  destruct (@dict_of_spec _ (flat_map expected_type_item (stripped_lines text))
              [] (NoDup_nil _)) as [Hkeys [Hitems _]].
  split; [exact Hkeys|]. intros k v Hin.
  destruct (Hitems k v Hin) as [Hitem | []].
  apply in_flat_map in Hitem. destruct Hitem as [line [Hline Hitem]].
  destruct (expected_type_item_from _ _ _ Hitem) as [col [t [Hcut [Hcol [-> ->]]]]].
  rewrite !strip_twice. repeat split; auto using strip_keeps_out.
  exists line, col, t. auto.
Qed.

(** X14. When several lines of the type rules name the same column, the
    last one gives its type: the type [parse_expected_types] returns for a
    column is the one of the last line that assigns it. *)
Theorem parse_expected_types_last_line_wins (text : string) (k : string) :
  exists d,
    parse_expected_types text = Some d
    /\ lookup k d
       = lookup k (rev (flat_map expected_type_item (stripped_lines text))).
Proof.
  eexists. split; [apply parse_expected_types_dict|].
  destruct (@dict_of_spec _ (flat_map expected_type_item (stripped_lines text))
              [] (NoDup_nil _)) as [_ [_ Hlookup]].
  rewrite Hlookup.
  now destruct (lookup k (rev (flat_map expected_type_item (stripped_lines text)))).
Qed.

(** The assignment a stripped line of the allowed values makes, if any. *)
Definition allowed_values_item (line : string) : list (string * list string) :=
  if py.contains "="%char line then
    match py.split_once "="%char line with
    | [col; vals] => [(py.strip col, stripped_items vals)]
    | _ => []
    end
  else [].

Lemma parse_allowed_values_line_item out line :
  parse_allowed_values_line out line
  = match Some (allowed_values_item line) with
    | Some here => Some (dict_of here out)
    | None => None
    end.
Proof.
  unfold parse_allowed_values_line, allowed_values_item.
  destruct (py.contains "="%char line) eqn:Hsign; [|reflexivity].
  destruct (split_once_at_first _ _ Hsign) as [a [b [Hsplit _]]].
  now rewrite Hsplit.
Qed.

Lemma parse_allowed_values_dict (text : string) :
  parse_allowed_values text
  = Some (dict_of (flat_map allowed_values_item (stripped_lines text)) []).
Proof.
  unfold parse_allowed_values.
  rewrite (for_each_builds_dict _ (fun line => Some (allowed_values_item line))
             parse_allowed_values_line_item).
  now rewrite all_items_total.
Qed.

(** The names cut out of a comma-separated text are not empty, stripped and
    without comma. *)
Lemma stripped_parts_clean (text name : string) :
  In name (filter py.nonempty (map py.strip (py.split ","%char text))) ->
  name <> EmptyString /\ py.strip name = name
  /\ py.contains ","%char name = false.
Proof.
  intros Hin. apply filter_In in Hin. destruct Hin as [Hin Hsome].
  apply in_map_iff in Hin. destruct Hin as [part [<- Hpart]].
  split; [|split].
  - intros Hempty. rewrite Hempty in Hsome. discriminate.
  - apply strip_twice.
  - apply strip_keeps_out.
    now apply (proj2 (split_parts_without ","%char text)).
Qed.

(** X15. [parse_allowed_values] never raises and returns a dict with
    distinct columns; a line without "=" is skipped; every allowed value is
    a text that is not empty, stripped and without comma, and the column is
    stripped and has no "=". *)
Theorem parse_allowed_values_returns_a_dict (text : string) :
  exists d,
    parse_allowed_values text = Some d
    /\ NoDup (map fst d)
    /\ forall k vals,
         In (k, vals) d ->
         py.strip k = k /\ py.contains "="%char k = false
         /\ (exists line, In line (stripped_lines text)
                          /\ py.contains "="%char line = true)
         /\ forall v, In v vals ->
                      v <> EmptyString /\ py.strip v = v
                      /\ py.contains ","%char v = false.
Proof.
  eexists. split; [apply parse_allowed_values_dict|].
  destruct (@dict_of_spec _ (flat_map allowed_values_item (stripped_lines text))
              [] (NoDup_nil _)) as [Hkeys [Hitems _]].
  split; [exact Hkeys|]. intros k vals Hin.
  destruct (Hitems k vals Hin) as [Hitem | []].
  apply in_flat_map in Hitem. destruct Hitem as [line [Hline Hitem]].
  unfold allowed_values_item in Hitem.
  destruct (py.contains "="%char line) eqn:Hsign; [|contradiction].
  destruct (split_once_at_first _ _ Hsign) as [a [b [Hsplit [Ha _]]]].
  rewrite Hsplit in Hitem. destruct Hitem as [Heq | []].
  inversion Heq; subst k vals.
  split; [apply strip_twice|]. split; [now apply strip_keeps_out|].
  split; [eauto|]. intros v Hv. now apply (stripped_parts_clean b).
Qed.

(** X18. The column names the application cuts out of a comma-separated
    text are not empty, stripped and without comma, and the optional list
    passed on is never an empty list: it is [None] exactly when the text
    names no column. *)
Theorem names_of_text_are_clean (text : string) :
  (forall name, In name (names_of text) ->
                name <> EmptyString /\ py.strip name = name
                /\ py.contains ","%char name = false)
  /\ or_None (names_of text) <> Some []
  /\ (or_None (names_of text) = None <-> names_of text = []).
Proof.
  split; [|split].
  - intros name. apply stripped_parts_clean.
  - destruct (names_of text); discriminate.
  - destruct (names_of text); simpl; split; congruence.
Qed.

Section RangeRules.

Variable float : Type.
Variable float_of : string -> option float.

(** The assignment a stripped line of the range rules makes, if any;
    [None] when [float] raises on one of its bounds. *)
Definition range_item (line : string)
  : option (list (string * (option float * option float))) :=
  match py.split ":"%char line with
  | [col; mn; mx] =>
      match bound_of float_of mn, bound_of float_of mx with
      | Some mn_val, Some mx_val => Some [(py.strip col, (mn_val, mx_val))]
      | _, _ => None
      end
  | _ => Some []
  end.

Lemma parse_ranges_line_item out line :
  parse_ranges_line float_of out line
  = match range_item line with
    | Some here => Some (dict_of here out)
    | None => None
    end.
Proof.
  unfold parse_ranges_line, range_item.
  destruct (py.split ":"%char line) as [|col [|mn [|mx [|extra parts]]]];
    try reflexivity.
  destruct (bound_of float_of mn); [|reflexivity].
  destruct (bound_of float_of mx); reflexivity.
Qed.

Lemma parse_ranges_items (text : string) :
  parse_ranges float_of text
  = match all_items range_item (stripped_lines text) with
    | Some items => Some (dict_of items [])
    | None => None
    end.
Proof.
  unfold parse_ranges.
  apply (for_each_builds_dict _ range_item parse_ranges_line_item).
Qed.

(** A bound text on which the parser raises: it is not blank and [float]
    rejects it. *)
Definition bad_bound (s : string) : Prop :=
  py.nonempty (py.strip s) = true /\ float_of s = None.

Lemma bound_of_None (s : string) : bound_of float_of s = None <-> bad_bound s.
Proof.
  unfold bound_of, bad_bound.
  destruct (py.nonempty (py.strip s)); destruct (float_of s);
    split; intros H; try discriminate; try tauto; destruct H; discriminate.
Qed.

Lemma range_item_None (line : string) :
  range_item line = None
  <-> exists col mn mx,
        py.split ":"%char line = [col; mn; mx]
        /\ (bad_bound mn \/ bad_bound mx).
Proof.
  unfold range_item.
  destruct (py.split ":"%char line) as [|col [|mn [|mx [|extra parts]]]];
    try (split; [discriminate | intros [c [a [b [Heq _]]]]; discriminate]).
  destruct (bound_of float_of mn) as [mn_val|] eqn:Hmn;
    destruct (bound_of float_of mx) as [mx_val|] eqn:Hmx; split;
    try discriminate; try reflexivity.
  - intros [c [a [b [Heq [Hbad | Hbad]]]]]; inversion Heq; subst;
      apply bound_of_None in Hbad; congruence.
  - intros _. exists col, mn, mx. split; [reflexivity|]. right.
    now apply bound_of_None.
  - intros _. exists col, mn, mx. split; [reflexivity|]. left.
    now apply bound_of_None.
  - intros _. exists col, mn, mx. split; [reflexivity|]. left.
    now apply bound_of_None.
Qed.

(** X16. [parse_ranges] raises exactly when some non-blank line, cut at
    its colons, has three parts and a minimum or a maximum that is not
    blank and is rejected by [float]; a line with another number of parts
    never makes it raise. *)
Theorem parse_ranges_raises_iff (text : string) :
  parse_ranges float_of text = None
  <-> exists line col mn mx,
        In line (stripped_lines text)
        /\ py.split ":"%char line = [col; mn; mx]
        /\ (bad_bound mn \/ bad_bound mx).
Proof.
  rewrite parse_ranges_items.
  destruct (all_items range_item (stripped_lines text)) as [items|] eqn:Hall.
  - split; [discriminate|]. intros [line [col [mn [mx [Hin [Hsplit Hbad]]]]]].
    assert (Hnone : all_items range_item (stripped_lines text) = None).
    { apply all_items_None. exists line. split; [exact Hin|].
      apply range_item_None. eauto. }
    congruence.
  - split; [|reflexivity]. intros _. apply all_items_None in Hall.
    destruct Hall as [line [Hin Hnone]]. apply range_item_None in Hnone.
    destruct Hnone as [col [mn [mx [Hsplit Hbad]]]].
    exists line, col, mn, mx. auto.
Qed.

(** How a bound text is read when the parser does not raise: a blank text
    is no bound, another text is the float it denotes. *)
Definition reads_as (s : string) (bound : option float) : Prop :=
  (py.nonempty (py.strip s) = false /\ bound = None)
  \/ (py.nonempty (py.strip s) = true
      /\ exists x, float_of s = Some x /\ bound = Some x).

Lemma bound_of_Some (s : string) (bound : option float) :
  bound_of float_of s = Some bound -> reads_as s bound.
Proof.
  unfold bound_of, reads_as.
  destruct (py.nonempty (py.strip s)); [|intros H; inversion H; auto].
  destruct (float_of s) as [x|]; [|discriminate].
  intros H. inversion H. right. eauto.
Qed.

(** X17. When [parse_ranges] returns, it returns a dict with distinct
    columns, and every item comes from a non-blank line with exactly two
    colons: the column is the stripped first part, a blank bound is no
    bound and any other bound is the float of its text. Lines with another
    number of colons give no item. *)
Theorem parse_ranges_items_come_from_lines (text : string) d :
  parse_ranges float_of text = Some d ->
  NoDup (map fst d)
  /\ forall k min_val max_val,
       In (k, (min_val, max_val)) d ->
       exists line col mn mx,
         In line (stripped_lines text)
         /\ py.split ":"%char line = [col; mn; mx]
         /\ k = py.strip col /\ reads_as mn min_val /\ reads_as mx max_val.
Proof.
  rewrite parse_ranges_items.
  destruct (all_items range_item (stripped_lines text)) as [items|] eqn:Hall;
    [|discriminate].
  intros Hd. inversion Hd; subst d.
  destruct (@dict_of_spec _ items [] (NoDup_nil _)) as [Hkeys [Hitems _]].
  split; [exact Hkeys|]. intros k a b Hin.
  destruct (Hitems _ _ Hin) as [Hitem | []].
  destruct (@all_items_Some _ _ _ _ _ _ Hall Hitem)
    as [line [here [Hline [Hhere Hk]]]].
  unfold range_item in Hhere.
  destruct (py.split ":"%char line) as [|col [|mn [|mx [|extra parts]]]] eqn:Hsplit;
    try (inversion Hhere; subst here; contradiction).
  destruct (bound_of float_of mn) as [mn_val|] eqn:Hmn; [|discriminate].
  destruct (bound_of float_of mx) as [mx_val|] eqn:Hmx; [|discriminate].
  inversion Hhere; subst here. destruct Hk as [Heq | []].
  inversion Heq; subst. exists line, col, mn, mx.
  repeat split; auto using bound_of_Some.
Qed.

End RangeRules.

(** ** Writing type rules and reading them back *)

(** A text without line boundary. *)
Fixpoint one_line (s : string) : bool :=
  match s with
  | EmptyString => true
  | String c s' => negb (py.is_linebreak c) && one_line s'
  end.

(** The rule text with one line [column:type] for each item of a dict. *)
Definition write_expected_types (d : list (string * string)) : string :=
  String.concat (String "010"%char EmptyString)
    (map (fun item => (fst item ++ String ":"%char (snd item))%string) d).

Lemma append_assoc (a b c : string) :
  ((a ++ b) ++ c = a ++ (b ++ c))%string.
Proof. induction a as [|x a IH]; simpl; [reflexivity | now rewrite IH]. Qed.

Lemma append_empty (s : string) : (s ++ "")%string = s.
Proof. induction s as [|c s IH]; simpl; [reflexivity | now rewrite IH]. Qed.

Lemma splitlines_from_line (line rest cur : string) :
  one_line line = true ->
  py.splitlines_from cur (line ++ rest)
  = py.splitlines_from (cur ++ line) rest.
Proof.
  revert cur. induction line as [|c line IH]; intros cur Hline; simpl.
  - now rewrite append_empty.
  - simpl in Hline. apply andb_true_iff in Hline. destruct Hline as [Hc Hline].
    apply negb_true_iff in Hc. rewrite Hc, IH by assumption.
    now rewrite append_assoc.
Qed.

Lemma splitlines_from_newline (cur rest : string) :
  py.splitlines_from cur (String "010"%char rest)
  = cur :: py.splitlines_from EmptyString rest.
Proof. simpl. destruct rest; reflexivity. Qed.

Lemma splitlines_of_lines (lines : list string) :
  (forall line, In line lines ->
                one_line line = true /\ py.nonempty line = true) ->
  py.splitlines (String.concat (String "010"%char EmptyString) lines) = lines.
Proof.
  unfold py.splitlines. induction lines as [|x lines IH]; intros Hlines.
  - reflexivity.
  - destruct (Hlines x (or_introl eq_refl)) as [Hx Hsome].
    destruct lines as [|y lines].
    + cbn [String.concat].
      rewrite <- (append_empty x) at 1.
      rewrite splitlines_from_line by assumption. cbn [append].
      destruct x; [discriminate | reflexivity].
    + change (String.concat (String "010"%char EmptyString) (x :: y :: lines))
        with (x ++ String "010"%char
                     (String.concat (String "010"%char EmptyString) (y :: lines)))%string.
      rewrite splitlines_from_line by assumption. cbn [append].
      rewrite splitlines_from_newline, IH; [reflexivity|].
      intros line Hline. apply Hlines. now right.
Qed.

Lemma strip_starts_clean (s : string) : py.strip s = s -> starts_clean s.
Proof.
  intros Hs. rewrite <- Hs. apply rstrip_starts_clean, lstrip_starts_clean.
Qed.

Lemma strip_fixed_rstrip (s : string) : py.strip s = s -> py.rstrip s = s.
Proof. intros Hs. rewrite <- Hs at 1. unfold py.strip. now rewrite rstrip_twice. Qed.

Lemma rstrip_after (a b : string) :
  py.rstrip b <> EmptyString -> py.rstrip (a ++ b) = (a ++ py.rstrip b)%string.
Proof.
  intros Hb. induction a as [|c a IH]; simpl; [reflexivity|].
  rewrite IH. destruct (a ++ py.rstrip b)%string eqn:Hab; [|reflexivity].
  destruct a; simpl in Hab; [contradiction | discriminate].
Qed.

Lemma colon_is_no_space : py.isspace ":"%char = false.
Proof. reflexivity. Qed.

Lemma rule_line_stripped (k v : string) :
  py.strip k = k -> py.strip v = v ->
  py.strip (k ++ String ":"%char v) = (k ++ String ":"%char v)%string.
Proof.
  intros Hk Hv. unfold py.strip.
  assert (Hclean : starts_clean (k ++ String ":"%char v)).
  { pose proof (@strip_starts_clean k Hk) as Hstart.
    destruct k; [reflexivity | exact Hstart]. }
  rewrite (@lstrip_of_clean _ Hclean).
  assert (Htail : py.rstrip (String ":"%char v) = String ":"%char v).
  { simpl. rewrite (@strip_fixed_rstrip v Hv). now destruct v. }
  rewrite rstrip_after; rewrite Htail; [reflexivity | discriminate].
Qed.

Lemma contains_append (c : ascii) (a b : string) :
  py.contains c (a ++ b) = py.contains c a || py.contains c b.
Proof.
  induction a as [|x a IH]; simpl; [reflexivity|].
  now rewrite IH, orb_assoc.
Qed.

Lemma split_once_of_rule (k v : string) :
  py.contains ":"%char k = false ->
  py.split_once ":"%char (k ++ String ":"%char v) = [k; v].
Proof.
  intros Hk. induction k as [|c k IH]; simpl; [reflexivity|].
  simpl in Hk. apply orb_false_iff in Hk. destruct Hk as [Hc Hk].
  now rewrite Hc, IH.
Qed.

Lemma dict_set_new (A : Type) (k : string) (v : A) (d : list (string * A)) :
  ~ In k (map fst d) -> py.dict_set k v d = d ++ [(k, v)].
Proof.
  induction d as [|[k0 v0] d IH]; simpl; intros Hnew; [reflexivity|].
  destruct (String.eqb k k0) eqn:Hk.
  - apply String.eqb_eq in Hk. subst k0. destruct Hnew. now left.
  - rewrite IH; [reflexivity|]. intros Hin. apply Hnew. now right.
Qed.

Lemma dict_of_distinct (A : Type) (items out : list (string * A)) :
  NoDup (map fst (out ++ items)) -> dict_of items out = out ++ items.
Proof.
  unfold dict_of. revert out.
  induction items as [|[k v] items IH]; intros out Hkeys; simpl.
  - now rewrite app_nil_r.
  - assert (Hnew : ~ In k (map fst out)).
    { rewrite map_app in Hkeys. cbn [map fst] in Hkeys.
      apply NoDup_remove_2 in Hkeys. intros Hin. apply Hkeys.
      apply in_app_iff. now left. }
    rewrite (@dict_set_new _ k v out Hnew), IH.
    + now rewrite <- app_assoc.
    + now rewrite <- app_assoc.
Qed.

(** X22. Type rules can be written and read back: for a dict with distinct
    columns whose columns and type names are stripped and on one line, the
    columns without colon, [parse_expected_types] applied to the text with
    one line [column:type] per item returns the dict, with its items in
    the same order. *)
Theorem parse_expected_types_reads_back (d : list (string * string)) :
  NoDup (map fst d) ->
  (forall k v, In (k, v) d ->
               py.strip k = k /\ py.strip v = v
               /\ py.contains ":"%char k = false
               /\ one_line k = true /\ one_line v = true) ->
  parse_expected_types (write_expected_types d) = Some d.
Proof.
  intros Hkeys Hclean. rewrite parse_expected_types_dict. f_equal.
  assert (Hlines : stripped_lines (write_expected_types d)
                   = map (fun item => (fst item ++ String ":"%char (snd item))%string) d).
  { unfold stripped_lines, write_expected_types.
    rewrite splitlines_of_lines.
    - rewrite map_map.
      rewrite (map_ext_in _ (fun item => (fst item ++ String ":"%char (snd item))%string)).
      + apply filter_all. intros line Hline. apply in_map_iff in Hline.
        destruct Hline as [[k v] [<- _]]. cbn [fst snd].
        now destruct k.
      + intros [k v] Hitem. cbn [fst snd].
        destruct (Hclean k v Hitem) as [Hk [Hv _]].
        now apply rule_line_stripped.
    - intros line Hline. apply in_map_iff in Hline.
      destruct Hline as [[k v] [<- Hitem]]. cbn [fst snd].
      destruct (Hclean k v Hitem) as [_ [_ [_ [Hk Hv]]]]. split.
      + clear - Hk Hv. induction k as [|c k IH]; simpl.
        * exact Hv.
        * simpl in Hk. apply andb_true_iff in Hk. destruct Hk as [Hc Hk].
          now rewrite Hc, IH.
      + now destruct k. }
  rewrite Hlines.
  assert (Hitems : flat_map expected_type_item
                     (map (fun item => (fst item ++ String ":"%char (snd item))%string) d)
                   = d).
  { clear Hlines Hkeys. induction d as [|[k v] d IH]; [reflexivity|].
    cbn [map flat_map fst snd].
    destruct (Hclean k v (or_introl eq_refl)) as [Hk [Hv [Hcolon _]]].
    rewrite IH by (intros k' v' Hin; apply Hclean; now right).
    unfold expected_type_item.
    rewrite contains_append. cbn [py.contains]. rewrite Ascii.eqb_refl.
    rewrite orb_true_r, (@split_once_of_rule k v Hcolon), Hk, Hv.
    reflexivity. }
  rewrite Hitems. now apply dict_of_distinct.
Qed.

(** ** The call and its exception *)

Section CallProperties.

Variable text_to_number : string -> option Q.
Variable datetime_unread : list scalar -> scalar -> bool.
Variable datetime_raises : list scalar -> bool.

(** The type loop raises when one of its items does, and is the loop of
    [check_types] otherwise. *)
Lemma check_types_call_returns df expected_types issues :
  check_types_call text_to_number datetime_unread datetime_raises df
    expected_types issues
  = if existsb (to_datetime_raises datetime_raises df) expected_types
    then None
    else Some (check_types text_to_number datetime_unread df expected_types
                 issues).
Proof.
  unfold check_types_call, check_types. revert issues.
  induction expected_types as [|item items IH]; intros issues;
    cbn [for_each existsb fold_left]; [reflexivity|].
  unfold check_type_call at 1.
  destruct (to_datetime_raises datetime_raises df item); cbn [orb];
    [reflexivity | apply IH].
Qed.

(** The call returns what [validate_dataframe] computes, unless the type
    loop raises. *)
Lemma validate_dataframe_call_returns df required_cols expected_types ranges
  allowed_values unique_key_cols email_cols :
  validate_dataframe_call text_to_number datetime_unread datetime_raises df
    required_cols expected_types ranges allowed_values unique_key_cols
    email_cols
  = if existsb (to_datetime_raises datetime_raises df) expected_types
    then None
    else Some (validate_dataframe text_to_number datetime_unread df
                 required_cols expected_types ranges allowed_values
                 unique_key_cols email_cols).
Proof.
  unfold validate_dataframe_call. rewrite check_types_call_returns.
  now destruct (existsb (to_datetime_raises datetime_raises df) expected_types).
Qed.

Lemma validate_dataframe_call_result df required_cols expected_types ranges
  allowed_values unique_key_cols email_cols result :
  validate_dataframe_call text_to_number datetime_unread datetime_raises df
    required_cols expected_types ranges allowed_values unique_key_cols
    email_cols = Some result ->
  result = validate_dataframe text_to_number datetime_unread df required_cols
             expected_types ranges allowed_values unique_key_cols email_cols.
Proof.
  rewrite validate_dataframe_call_returns.
  destruct (existsb (to_datetime_raises datetime_raises df) expected_types);
    congruence.
Qed.





End CallProperties.

(** ** The application's call *)

Section ApplicationProperties.

Variable text_to_number : string -> option Q.
Variable datetime_unread : list scalar -> scalar -> bool.
Variable datetime_raises : list scalar -> bool.
Variable float_of : string -> option Q.

Lemma has_comma_contains (s : string) : has_comma s = py.contains ","%char s.
Proof.
  unfold has_comma. induction s as [|a s IH]; simpl; [reflexivity|].
  now rewrite IH, Ascii.eqb_sym.
Qed.

(** What [validate_upload] is when the range rules are read. *)
Lemma validate_upload_result df required_cols_text unique_key_cols_text
  expected_types_text ranges_text allowed_values_text email_cols_text ranges :
  parse_ranges float_of ranges_text = Some ranges ->
  exists expected_types allowed_values,
    parse_expected_types expected_types_text = Some expected_types
    /\ parse_allowed_values allowed_values_text = Some allowed_values
    /\ validate_upload text_to_number datetime_unread datetime_raises
         float_of df required_cols_text unique_key_cols_text
         expected_types_text ranges_text allowed_values_text email_cols_text
       = validate_dataframe_call text_to_number datetime_unread
           datetime_raises df
           (names_of required_cols_text) expected_types ranges
           (map (fun item => (fst item, map VStr (snd item)))
              allowed_values)
           (or_None (names_of unique_key_cols_text))
           (or_None (names_of email_cols_text)).
Proof.
  intros Hranges. unfold validate_upload.
  rewrite parse_expected_types_dict, parse_allowed_values_dict, Hranges.
  eauto.
Qed.

Lemma validate_upload_without_ranges df required_cols_text
  unique_key_cols_text expected_types_text ranges_text allowed_values_text
  email_cols_text :
  parse_ranges float_of ranges_text = None ->
  validate_upload text_to_number datetime_unread datetime_raises float_of
    df
    required_cols_text unique_key_cols_text expected_types_text ranges_text
    allowed_values_text email_cols_text = None.
Proof.
  intros Hranges. unfold validate_upload.
  now rewrite parse_expected_types_dict, Hranges.
Qed.


(** X20. A required column typed into the application that is not in the
    uploaded dataset is reported as a missing required column, and every
    issue of the result that names it is dataset-level: no row-level issue
    carries its name. *)
Theorem typed_required_column_absent df required_cols_text
  unique_key_cols_text expected_types_text ranges_text allowed_values_text
  email_cols_text result c :
  validate_upload text_to_number datetime_unread datetime_raises float_of
    df
    required_cols_text unique_key_cols_text expected_types_text ranges_text
    allowed_values_text email_cols_text = Some result ->
  In c (names_of required_cols_text) ->
  has_column df c = false ->
  In (Build_Issue None (Some c) Missing_required_column PNone) (fst result)
  /\ forall i, In i (fst result) -> column i = Some c -> row_index i = None.
Proof.
  intros Hrun Hc Habsent.
  destruct (parse_ranges float_of ranges_text) as [ranges|] eqn:Hranges.
  - destruct (@validate_upload_result df required_cols_text
                unique_key_cols_text expected_types_text ranges_text
                allowed_values_text email_cols_text ranges Hranges)
      as [et [av [_ [_ Hcall]]]].
    rewrite Hcall in Hrun. apply validate_dataframe_call_result in Hrun.
    subst result. split.
    + rewrite validate_issues. unfold all_issues, required_issues.
      apply in_app_iff. left. apply in_map_iff. exists c.
      split; [reflexivity|]. apply filter_In. now rewrite Habsent.
    + intros i Hi Hcol.
      destruct (stripped_parts_clean _ _ Hc) as [_ [_ Hplain]].
      rewrite <- has_comma_contains in Hplain.
      edestruct plain_absent_name_dataset_level as [Hrow _];
        [exact Habsent | exact Hplain | exact Hi | exact Hcol | exact Hrow].
  - rewrite (@validate_upload_without_ranges df required_cols_text
               unique_key_cols_text expected_types_text ranges_text
               allowed_values_text email_cols_text Hranges) in Hrun.
    discriminate.
Qed.

Lemma number_is_no_text (v : scalar) (x : Q) (vals : list string) :
  as_number v = Some x -> existsb (value_eqb v) (map VStr vals) = false.
Proof.
  intros Hx. induction vals as [|s vals IH]; simpl; [reflexivity|].
  rewrite IH, orb_false_r. destruct v; simpl in *; congruence.
Qed.

(** X21. The allowed values typed into the application are texts, and a
    number is equal to no text: for a column of the dataset with an
    allowed-values rule, every cell that is a number (an integer, a float
    or a boolean) is reported as not allowed, whatever the rule lists. *)
Theorem typed_allowed_values_reject_numbers df required_cols_text
  unique_key_cols_text expected_types_text ranges_text allowed_values_text
  email_cols_text result allowed_values col vals idx r x :
  validate_upload text_to_number datetime_unread datetime_raises float_of
    df
    required_cols_text unique_key_cols_text expected_types_text ranges_text
    allowed_values_text email_cols_text = Some result ->
  parse_allowed_values allowed_values_text = Some allowed_values ->
  In (col, vals) allowed_values ->
  has_column df col = true ->
  nth_error (rows df) idx = Some r ->
  as_number (cell r col) = Some x ->
  In (Build_Issue (Some idx) (Some col) (Value_not_allowed (map VStr vals))
        (PCell (cell r col)))
     (fst result).
Proof.
  intros Hrun Hallowed Hitem Hhas Hr Hx.
  destruct (parse_ranges float_of ranges_text) as [ranges|] eqn:Hranges.
  - destruct (@validate_upload_result df required_cols_text
                unique_key_cols_text expected_types_text ranges_text
                allowed_values_text email_cols_text ranges Hranges)
      as [et [av [_ [Hav Hcall]]]].
    rewrite Hcall in Hrun. apply validate_dataframe_call_result in Hrun.
    subst result.
    assert (av = allowed_values) by congruence. subst av.
    apply not_allowed_issue_iff.
    split.
    + apply in_map_iff. exists (col, vals). auto.
    + split; [exact Hhas|]. exists r. repeat split; auto.
      * destruct (cell r col); simpl in *; congruence.
      * now apply number_is_no_text with (x := x).
  - rewrite (@validate_upload_without_ranges df required_cols_text
               unique_key_cols_text expected_types_text ranges_text
               allowed_values_text email_cols_text Hranges) in Hrun.
    discriminate.
Qed.

End ApplicationProperties.

(** ** The properties on the sample datasets *)

(** The results below do not depend on the two conversions: no text cell is
    read as a number and no datetime is expected in them. *)
Lemma twins_results_for_any_conversion text_to_number datetime_unread :
  fst (validate_dataframe text_to_number datetime_unread twins [] [] [] []
         None None)
  = [duplicate_row_issue 0; duplicate_row_issue 1]
  /\ fst (validate_dataframe text_to_number datetime_unread twins [] [] [] []
            (Some ["k"]) None)
     = [Build_Issue None (Some "k") Missing_key_column_for_duplicate_check PNone]
  /\ fst (validate_dataframe text_to_number datetime_unread twins ["x"] [] [] []
            (Some ["a"; "b"; "x"]) None)
     = [Build_Issue None (Some "x") Missing_required_column PNone;
        Build_Issue None (Some "x") Missing_key_column_for_duplicate_check PNone;
        duplicate_key_issue twins ["a"; "b"] 0;
        duplicate_key_issue twins ["a"; "b"] 1].
Proof. repeat split. Qed.

(** C2 as stated fails: the dataset [twins] is not empty and the rule
    configuration is, yet the whole-row duplicate check reports both rows. *)
Lemma empty_rules_report_twin_rows :
  empty twins = false
  /\ fst (validate twins [] [] [] [] None None)
     = [Build_Issue (Some 0) None Duplicate_row PNone;
        Build_Issue (Some 1) None Duplicate_row PNone]
  /\ total_issues (snd (validate twins [] [] [] [] None None)) = 2.
Proof. repeat split. Qed.

(** The amended C2 on [two_people], whose two rows differ. *)
Lemma empty_rules_on_distinct_rows_witness :
  empty two_people = false
  /\ fst (validate two_people [] [] [] [] None None) = []
  /\ total_issues (snd (validate two_people [] [] [] [] None None)) = 0.
Proof.
  split; [reflexivity|].
  apply (@empty_rules_on_distinct_rows sample_number sample_datetime_unread
           two_people None None); try reflexivity.
  intros i j ri rj Hi Hj Hne.
  destruct i as [|[|i]], j as [|[|j]]; cbn in Hi, Hj;
    try congruence;
    try (destruct i; discriminate); try (destruct j; discriminate);
    inversion Hi; inversion Hj; subst; reflexivity.
Defined.

(** C3 as stated fails: with the key column [k] absent from [twins] the two
    rows agree on every present key column (there is none) and their group
    has two rows, yet no duplicate issue is reported for row 0. *)
Lemma absent_key_reports_no_duplicate :
  nth_error (rows twins) 0 = Some [("a", VInt 1); ("b", VInt 2)]
  /\ grouping_columns twins (Some ["k"]) = []
  /\ group_size twins (grouping_columns twins (Some ["k"]))
       [("a", VInt 1); ("b", VInt 2)] = 2
  /\ filter (is_duplicate_issue_at 0)
       (fst (validate twins [] [] [] [] (Some ["k"]) None)) = [].
Proof. repeat split. Qed.

(** The amended C3 on [scenario_A] with the key [id]: row 0 is reported once. *)
Lemma duplicate_rows_reported_once_witness :
  grouping_columns scenario_A (Some ["id"]) = ["id"]
  /\ List.length
       (filter (is_duplicate_issue_at 0)
          (fst (validate scenario_A ["id"; "email"; "age"]
                  [("id", "int"); ("age", "int")]
                  [("age", (Some 0%Q, Some 120%Q))] []
                  (Some ["id"]) (Some ["email"]))))
     = 1.
Proof.
  split; [reflexivity|].
  apply (@duplicate_rows_reported_once sample_number sample_datetime_unread
           scenario_A ["id"; "email"; "age"] [("id", "int"); ("age", "int")]
           [("age", (Some 0%Q, Some 120%Q))] [] (Some ["id"]) (Some ["email"])
           0 [("id", VInt 1); ("email", VStr "a@x.com"); ("age", VInt 30)]).
  - discriminate.
  - reflexivity.
Defined.

(** C4 on [missing_ids]: rows 0 and 1 miss the id and have the same name. *)
Lemma rows_equal_on_keys_both_reported_witness :
  In (Build_Issue (Some 0) (Some "id,name") Duplicate_key
        (PDict [("id", NaN); ("name", VStr "Ann")]))
     (fst (validate missing_ids [] [] [] [] (Some ["id"; "name"]) None))
  /\ In (Build_Issue (Some 1) (Some "id,name") Duplicate_key
           (PDict [("id", NaN); ("name", VStr "Ann")]))
        (fst (validate missing_ids [] [] [] [] (Some ["id"; "name"]) None)).
Proof.
  apply (@rows_equal_on_keys_both_reported sample_number sample_datetime_unread
           missing_ids [] [] [] [] (Some ["id"; "name"]) None
           ["id"; "name"] "id" 0 1
           [("id", NaN); ("name", VStr "Ann")]
           [("id", NaN); ("name", VStr "Ann")]);
    try reflexivity.
  - left. reflexivity.
  - discriminate.
  - intros c [<- | [<- | []]] _; [left | right]; split; reflexivity.
Defined.

(** C5 on [scenario_D]: the age "abc" is no number; the only issue of its
    row and column is the type mismatch. *)
Lemma range_check_skips_uncoerced_cells_witness :
  to_numeric_value sample_number (at_ scenario_D 0 "age") = None
  /\ fst (validate scenario_D [] [("age", "int")]
            [("age", (Some 0%Q, Some 120%Q))] [] None None)
     = [Build_Issue (Some 0) (Some "age") (Type_mismatch "int")
          (PCell (VStr "abc"))]
  /\ issue (Build_Issue (Some 0) (Some "age") (Type_mismatch "int")
              (PCell (VStr "abc"))) <> Value_below_min 0
  /\ issue (Build_Issue (Some 0) (Some "age") (Type_mismatch "int")
              (PCell (VStr "abc"))) <> Value_above_max 120.
Proof.
  split; [reflexivity|]. split; [reflexivity|].
  split;
    apply (@range_check_skips_uncoerced_cells sample_number
             sample_datetime_unread scenario_D [] [("age", "int")]
             [("age", (Some 0%Q, Some 120%Q))] [] None None 0 "age"
             (Build_Issue (Some 0) (Some "age") (Type_mismatch "int")
                (PCell (VStr "abc"))));
    try reflexivity; try (right; reflexivity); left; reflexivity.
Defined.

(** C6 as stated fails on [big_id], whose id is the integer 2^53 + 1, with
    the minimum 10^16 and the maximum 2^53: the integer lies strictly
    between the maximum and the minimum, but the comparisons see the float
    2^53, which is not above the maximum, and only the below-min issue is
    reported. *)
Lemma crossed_bounds_beyond_float_precision :
  (9007199254740992 < inject_Z 9007199254740993)%Q
  /\ (inject_Z 9007199254740993 < 10000000000000000)%Q
  /\ to_numeric_value sample_number (VInt 9007199254740993)
     = Some 9007199254740992%Q
  /\ fst (validate big_id [] []
            [("id", (Some 10000000000000000%Q, Some 9007199254740992%Q))]
            [] None None)
     = [Build_Issue (Some 0) (Some "id") (Value_below_min 10000000000000000)
          (PCell (VInt 9007199254740993))].
Proof. repeat split. Qed.

(** The amended C6 on [one_age] with the range 100:10 and the age 50. *)
Lemma crossed_bounds_report_twice_witness :
  In (Build_Issue (Some 0) (Some "age") (Value_below_min 100)
        (PCell (VInt 50)))
     (fst (validate one_age [] [] [("age", (Some 100%Q, Some 10%Q))] []
             None None))
  /\ In (Build_Issue (Some 0) (Some "age") (Value_above_max 10)
           (PCell (VInt 50)))
        (fst (validate one_age [] [] [("age", (Some 100%Q, Some 10%Q))] []
                None None)).
Proof.
  apply (@crossed_bounds_report_twice sample_number sample_datetime_unread
           one_age [] [] [("age", (Some 100%Q, Some 10%Q))] [] None None
           "age" 100%Q 10%Q 0 [("age", VInt 50)] 50%Q);
    try reflexivity.
  left. reflexivity.
Defined.

(** C7 as stated fails on [twins], whose columns are [a] and [b]. The name
    [x], absent from the dataset, is listed as required column and as key
    column and gets two dataset-level issues, not a single one; and the
    name ["a,b"], absent too, is the column field of the two row-level
    duplicate-key issues of the composite key. *)
Lemma absent_names_in_column_field :
  has_column twins "x" = false
  /\ has_column twins "a,b" = false
  /\ fst (validate twins ["x"] [] [] [] (Some ["a"; "b"; "x"]) None)
     = [Build_Issue None (Some "x") Missing_required_column PNone;
        Build_Issue None (Some "x") Missing_key_column_for_duplicate_check PNone;
        Build_Issue (Some 0) (Some "a,b") Duplicate_key
          (PDict [("a", VInt 1); ("b", VInt 2)]);
        Build_Issue (Some 1) (Some "a,b") Duplicate_key
          (PDict [("a", VInt 1); ("b", VInt 2)])].
Proof. repeat split. Qed.

(** The amended C7 on [twins] for the absent name [x]. *)
Lemma absent_column_issues_witness :
  let i := Build_Issue None (Some "x") Missing_key_column_for_duplicate_check
             PNone in
  has_column twins "x" = false
  /\ ((row_index i = None /\ value i = PNone
       /\ (issue i = Missing_required_column
           \/ issue i = Missing_key_column_for_duplicate_check))
      \/ (issue i = Duplicate_key /\ has_comma "x" = true
          /\ exists ks,
               Some ["a"; "b"; "x"] = Some ks
               /\ "x" = String.concat "," (filter (has_column twins) ks)
               /\ 2 <= List.length (filter (has_column twins) ks))).
Proof.
  split; [reflexivity|].
  apply (@absent_column_issues sample_number sample_datetime_unread twins
           ["x"] [] [] [] (Some ["a"; "b"; "x"]) None "x"
           (Build_Issue None (Some "x") Missing_key_column_for_duplicate_check
              PNone)).
  - reflexivity.
  - right. left. reflexivity.
  - reflexivity.
Defined.



(** C9 as stated fails: for the empty issue list the table has no column at
    all, not four. *)
Lemma issues_to_df_of_no_issue :
  issues_to_df [] = {| table_columns := []; table_rows := [] |}
  /\ List.length (table_columns (issues_to_df [])) <> 4.
Proof. split; [reflexivity | discriminate]. Qed.

(** The amended C9 on a list of one duplicate-key issue. *)
Lemma issues_to_df_of_issues_witness :
  table_columns
    (issues_to_df [Build_Issue (Some 0) (Some "a,b") Duplicate_key
                     (PDict [("a", VInt 1); ("b", VInt 2)])])
  = ["row_index"; "column"; "issue"; "value"]
  /\ table_rows
       (issues_to_df [Build_Issue (Some 0) (Some "a,b") Duplicate_key
                        (PDict [("a", VInt 1); ("b", VInt 2)])])
     = [[FRowIndex (Some 0); FColumn (Some "a,b"); FIssue Duplicate_key;
         FValue (PDict [("a", VInt 1); ("b", VInt 2)])]].
Proof.
  apply (@issues_to_df_of_issues
           [Build_Issue (Some 0) (Some "a,b") Duplicate_key
              (PDict [("a", VInt 1); ("b", VInt 2)])]).
  discriminate.
Defined.

(** C10 on [twins] with the absent key columns [k] and [l]. *)
Lemma no_present_key_no_duplicate_check_witness :
  filter is_missing_key_issue
    (fst (validate twins [] [] [] [] (Some ["k"; "l"]) None))
  = [Build_Issue None (Some "k") Missing_key_column_for_duplicate_check PNone;
     Build_Issue None (Some "l") Missing_key_column_for_duplicate_check PNone]
  /\ (forall i,
         In i (fst (validate twins [] [] [] [] (Some ["k"; "l"]) None)) ->
         issue i <> Duplicate_key /\ issue i <> Duplicate_row).
Proof.
  apply (@no_present_key_no_duplicate_check sample_number
           sample_datetime_unread twins [] [] [] [] (Some ["k"; "l"]) None
           ["k"; "l"]).
  - reflexivity.
  - discriminate.
  - intros c [<- | [<- | []]]; reflexivity.
Defined.


(** ** Further properties on the sample datasets *)

(** X5 on [scenario_D]: the age "abc" under the expected type int. *)
Lemma numeric_type_mismatch_reported_iff_witness :
  In (Build_Issue (Some 0) (Some "age") (Type_mismatch "int")
        (PCell (VStr "abc")))
     (fst (validate scenario_D [] [("age", "int")] [] [] None None))
  <-> In ("age", "int") [("age", "int")] /\ has_column scenario_D "age" = true
      /\ exists r, nth_error (rows scenario_D) 0 = Some r
                   /\ VStr "abc" = cell r "age"
                   /\ isna_value (VStr "abc") = false
                   /\ to_numeric_value sample_number (VStr "abc") = None.
Proof.
  apply (@numeric_type_mismatch_reported_iff sample_number
           sample_datetime_unread scenario_D [] [("age", "int")] [] [] None
           None 0 "age" "int" (VStr "abc")).
  left. reflexivity.
Defined.

(** X7 on [one_age]: the age 50 with the range 50:50 and an email check on
    the same column. *)
Lemma value_within_bounds_not_reported_witness :
  In (Build_Issue (Some 0) (Some "age") Invalid_email (PCell (VInt 50)))
     (fst (validate one_age [] [] [("age", (Some 50%Q, Some 50%Q))] [] None
             (Some ["age"])))
  /\ issue (Build_Issue (Some 0) (Some "age") Invalid_email (PCell (VInt 50)))
     <> Value_below_min 50
  /\ issue (Build_Issue (Some 0) (Some "age") Invalid_email (PCell (VInt 50)))
     <> Value_above_max 50.
Proof.
  split; [left; reflexivity|].
  apply (@value_within_bounds_not_reported sample_number sample_datetime_unread
           one_age [] [] [("age", (Some 50%Q, Some 50%Q))] [] None
           (Some ["age"]) 0 "age" (Some 50%Q) (Some 50%Q) [("age", VInt 50)]
           50%Q
           (Build_Issue (Some 0) (Some "age") Invalid_email (PCell (VInt 50)))).
  - repeat constructor. intros [].
  - left. reflexivity.
  - reflexivity.
  - reflexivity.
  - intros m Hm. inversion Hm. apply Qle_refl.
  - intros m Hm. inversion Hm. apply Qle_refl.
  - left. reflexivity.
  - reflexivity.
  - reflexivity.
Defined.

(** X9 on [scenario_A]: the below-min issue of row 1. *)
Lemma issues_point_into_the_dataset_witness :
  let i := Build_Issue (Some 1) (Some "age") (Value_below_min 0)
             (PCell (VInt (-5))) in
  (forall idx, row_index i = Some idx -> idx < len scenario_A)
  /\ (row_index i = None -> value i = PNone)
  /\ (forall v, value i = PCell v ->
                isna_value v = false
                /\ exists idx col,
                     row_index i = Some idx /\ column i = Some col
                     /\ has_column scenario_A col = true
                     /\ v = at_ scenario_A idx col).
Proof.
  apply (@issues_point_into_the_dataset sample_number sample_datetime_unread
           scenario_A ["id"; "email"; "age"] [("id", "int"); ("age", "int")]
           [("age", (Some 0%Q, Some 120%Q))] [] (Some ["id"]) (Some ["email"])).
  right. right. left. reflexivity.
Defined.

(** X11 on [twins] with the key columns [a] and the absent [x]. *)
Lemma absent_key_columns_do_not_change_groups_witness :
  filter (fun i => negb (is_missing_key_issue i))
    (fst (validate twins [] [] [] [] (Some ["a"; "x"]) None))
  = fst (validate twins [] [] [] []
           (Some (filter (has_column twins) ["a"; "x"])) None).
Proof.
  apply (@absent_key_columns_do_not_change_groups sample_number
           sample_datetime_unread twins [] [] [] [] None ["a"; "x"]).
  discriminate.
Defined.

(** X12 on [twins] for the absent required column [x]. *)
Lemma absent_plain_name_has_no_row_issue_witness :
  let i := Build_Issue None (Some "x") Missing_required_column PNone in
  row_index i = None /\ value i = PNone
  /\ (issue i = Missing_required_column
      \/ issue i = Missing_key_column_for_duplicate_check).
Proof.
  apply (@absent_plain_name_has_no_row_issue sample_number
           sample_datetime_unread twins ["x"] [] [] [] None None "x").
  - reflexivity.
  - reflexivity.
  - left. reflexivity.
  - reflexivity.
Defined.

(** X17 on the range rule "age:0:120". *)
Lemma parse_ranges_items_come_from_lines_witness :
  parse_ranges sample_number "age:0:120"
  = Some [("age", (Some 0%Q, Some 120%Q))]
  /\ NoDup (map fst [("age", (Some 0%Q, Some 120%Q))])
  /\ forall k min_val max_val,
       In (k, (min_val, max_val)) [("age", (Some 0%Q, Some 120%Q))] ->
       exists line col mn mx,
         In line (stripped_lines "age:0:120")
         /\ py.split ":"%char line = [col; mn; mx]
         /\ k = py.strip col
         /\ reads_as sample_number mn min_val
         /\ reads_as sample_number mx max_val.
Proof.
  split; [reflexivity|].
  apply (@parse_ranges_items_come_from_lines Q sample_number "age:0:120").
  reflexivity.
Defined.

(** X20 on [twins] with the required columns typed as "a, x". *)
Lemma typed_required_column_absent_witness :
  In (Build_Issue None (Some "x") Missing_required_column PNone)
     (fst (validate twins ["a"; "x"] [] [] [] None None))
  /\ forall i, In i (fst (validate twins ["a"; "x"] [] [] [] None None)) ->
               column i = Some "x" -> row_index i = None.
Proof.
  apply (@typed_required_column_absent sample_number sample_datetime_unread
           sample_datetime_raises sample_number twins "a, x" "" "" "" "" ""
           (validate twins ["a"; "x"] [] [] [] None None) "x").
  - reflexivity.
  - right. left. reflexivity.
  - reflexivity.
Defined.

(** X21 on [levels] with the allowed values typed as "level=1,2": the
    level 1 is reported, the allowed values being the texts "1" and "2". *)
Lemma typed_allowed_values_reject_numbers_witness :
  In (Build_Issue (Some 0) (Some "level")
        (Value_not_allowed [VStr "1"; VStr "2"]) (PCell (VInt 1)))
     (fst (validate levels [] [] [] [("level", [VStr "1"; VStr "2"])]
             None None)).
Proof.
  apply (@typed_allowed_values_reject_numbers sample_number
           sample_datetime_unread sample_datetime_raises sample_number levels "" "" "" ""
           "level=1,2" ""
           (validate levels [] [] [] [("level", [VStr "1"; VStr "2"])]
              None None)
           [("level", ["1"; "2"])] "level" ["1"; "2"] 0 [("level", VInt 1)]
           1%Q).
  - reflexivity.
  - reflexivity.
  - left. reflexivity.
  - reflexivity.
  - reflexivity.
  - reflexivity.
Defined.

(** X22 on the type rules of id and age. *)
Lemma parse_expected_types_reads_back_witness :
  parse_expected_types
    (write_expected_types [("id", "int"); ("age", "float")])
  = Some [("id", "int"); ("age", "float")].
Proof.
  apply (@parse_expected_types_reads_back [("id", "int"); ("age", "float")]).
  - repeat constructor; simpl; intuition discriminate.
  - intros k v [H | [H | []]]; inversion H; subst; repeat split; reflexivity.
Defined.
